(** * Notary: trust bootstrap, root-certificate rotation and timestamp freshness

    A shallow embedding of [certs/certs.go] (package [certs]) and of the
    [timestamp] package of the notary server, together with the properties
    of the trust validator, the signing-key registry and the timestamp
    freshness engine.

    Go values are embedded as follows:
    - [error] is an inductive type with one constructor for every concrete
      error type the code inspects with a type assertion, and [ErrOther]
      for all remaining errors;
    - a Go [map[string]T] is a [gmap string T]; a [range] over a map goes
      through [mapRange], an arbitrary enumeration of the map's entries
      (Go leaves the iteration order unspecified);
    - calls to packages that are not part of the embedded files
      ([trustmanager], [tuf/signed], [tuf/data], [crypto/x509], the
      stores) are fields of type classes, so that every theorem holds for
      all their implementations;
    - stateful collaborators thread their state explicitly. *)

From Stdlib Require Import ZArith String List Bool Lia.
From stdpp Require Import base option list gmap strings pretty.

Local Open Scope string_scope.
Local Open Scope Z_scope.

(** Closes an equation between closed terms by running the code. *)
Ltac by_computation := vm_compute; reflexivity.

(** ** Errors and results *)

(** The concrete error types that the code distinguishes by type
    assertion, and a catch-all for every other error value. *)
Inductive error : Type :=
| ErrValidationFail (Reason : string)       (* certs.ErrValidationFail *)
| ErrRootRotationFail (Reason : string)     (* certs.ErrRootRotationFail *)
| ErrNoCertificatesFound                    (* trustmanager.ErrNoCertificatesFound *)
| ErrCertExists                             (* trustmanager.ErrCertExists *)
| ErrNoKey                                  (* storage.ErrNoKey *)
| ErrKeyExists                              (* storage.ErrKeyExists *)
| ErrNotFound                               (* storage.ErrNotFound *)
| ErrOther (msg : string).

(** A Go pair [(value, error)] of which only one side is meaningful. *)
Inductive result (A : Type) : Type :=
| Ok (a : A)
| Err (e : error).
Arguments Ok {A} a.
Arguments Err {A} e.

Definition isErrNoCertificatesFound (e : error) : bool :=
  match e with ErrNoCertificatesFound => true | _ => false end.

Definition isErrCertExists (e : error) : bool :=
  match e with ErrCertExists => true | _ => false end.

Definition isErrNoKey (e : error) : bool :=
  match e with ErrNoKey => true | _ => false end.

Definition isErrKeyExists (e : error) : bool :=
  match e with ErrKeyExists => true | _ => false end.

(** ** Data shared by both packages *)

(** [data.PublicKey]: algorithm and public bytes. *)
Record PublicKey : Type := NewPublicKey {
  Algorithm : string;
  Public : string
}.

Record Signature : Type := {
  KeyID : string;
  Method : string;
  SignatureBytes : string
}.

(** [data.Signed]: the raw signed payload and its signatures. *)
Record Signed : Type := {
  SignedPayload : string;
  Signatures : list Signature
}.

(** [data.RootRole] restricted to its key IDs. *)
Record RootRole : Type := { KeyIDs : list string }.

(** [data.SignedRoot]: [Signed.Roles] and [Signed.Keys]. *)
Record SignedRoot : Type := {
  Roles : gmap string RootRole;
  Keys : gmap string PublicKey
}.

Module Certs.

(** ** Certificates and root documents *)

(** [x509.SignatureAlgorithm]. *)
Inductive SignatureAlgorithm : Type :=
| UnknownSignatureAlgorithm
| MD2WithRSA | MD5WithRSA
| SHA1WithRSA | SHA256WithRSA | SHA384WithRSA | SHA512WithRSA
| DSAWithSHA1 | DSAWithSHA256
| ECDSAWithSHA1 | ECDSAWithSHA256 | ECDSAWithSHA384 | ECDSAWithSHA512.

(** The fields of [x509.Certificate] that the validator reads. [Raw]
    stands for the DER bytes; times are seconds on the clock of [now]. *)
Record Certificate : Type := {
  Raw : string;
  CommonName : string;            (* Subject.CommonName *)
  NotAfter : Z;
  SigAlg : SignatureAlgorithm;  (* SignatureAlgorithm *)
  IsCA : bool
}.

(** [notary.TrustPinConfig]. *)
Record TrustPinConfig : Type := {
  CA : gmap string string;
  Certs : gmap string string;
  TOFU : bool
}.

(** ** Collaborators *)

(** [trustmanager.X509Store], with the store's state passed explicitly.
    The query leaves the state as it is and returns the Go pair:
    certificates and error. *)
Class X509Store (S : Type) : Type := {
  GetCertificatesByCN : S -> string -> list Certificate * option error;
  AddCert : S -> Certificate -> S * option error;
  RemoveCert : S -> Certificate -> S * option error
}.

(** Functions of other packages called by [certs.go]. [now] is the value
    of [time.Now()] during the call. *)
Class Externals : Type := {
  now : Z;
  RootFromSigned : Signed -> result SignedRoot;                   (* data *)
  LoadCertBundleFromPEM : string -> result (list Certificate);     (* trustmanager *)
  GetLeafCerts : list Certificate -> list Certificate;
  GetIntermediateCerts : list Certificate -> list Certificate;
  FingerprintCert : Certificate -> result string;
  CertsToKeys : list Certificate -> gmap string PublicKey;
  LoadCertFromFile : string -> result Certificate;
  ValidateCertificate : Certificate -> option error;
  VerifyRoot : Signed -> Z -> gmap string PublicKey -> option error; (* signed *)
  (* cert.Verify(x509.VerifyOptions{Roots, Intermediates}) *)
  x509Verify : Certificate -> list Certificate -> list Certificate -> option error;
  (* the order in which a [range] statement visits a map *)
  mapRange : forall A : Type, gmap string A -> list (string * A);
  mapRange_perm : forall (A : Type) (m : gmap string A),
      mapRange A m ≡ₚ map_to_list m
}.
Arguments mapRange {_} {A} m.

(** Modelled from the spec: [utils.ContainsKeyPrefix] is not among the
    embedded files; the spec describes it as "some key in
    [trustPinConfig.CA] is a prefix of [gun]". *)
Definition ContainsKeyPrefix (keyPrefixMap : gmap string string) (key : string) : bool :=
  bool_decide (Exists (fun prefixKey => String.prefix prefixKey key = true)
                      (elements (dom keyPrefixMap))).

(** [strings.HasPrefix(s, prefix)]. *)
Definition HasPrefix (s prefix : string) : bool := String.prefix prefix s.

Section Validator.
Context {S : Type} {store : X509Store S} {ext : Externals}.

(** ** [parseAllCerts] *)

(** One iteration of the loop over the root role's key IDs. *)
Definition parseKey (signedRoot : SignedRoot)
    (acc : gmap string Certificate * gmap string (list Certificate))
    (keyID : string)
  : gmap string Certificate * gmap string (list Certificate) :=
  match Keys signedRoot !! keyID with
  | None => acc
  | Some key =>
    match LoadCertBundleFromPEM (Public key) with
    | Err _ => acc
    | Ok decodedCerts =>
      match GetLeafCerts decodedCerts with
      | [leafCert] =>
        match FingerprintCert leafCert with
        | Err _ => acc
        | Ok leafID =>
          (<[leafID := leafCert]> (fst acc),
           <[leafID := GetIntermediateCerts decodedCerts]> (snd acc))
        end
      | _ => acc
      end
    end
  end.

Definition parseAllCerts (signedRoot : SignedRoot)
  : gmap string Certificate * gmap string (list Certificate) :=
  match Roles signedRoot !! "root" with
  | None => (∅, ∅)
  | Some rootRoles => foldl (parseKey signedRoot) (∅, ∅) (KeyIDs rootRoles)
  end.

(** ** [validRootLeafCerts] *)

Definition usesSHA1 (cert : Certificate) : bool :=
  match SigAlg cert with
  | SHA1WithRSA | DSAWithSHA1 | ECDSAWithSHA1 => true
  | _ => false
  end.

(** The three tests of the loop body: a certificate is appended when it
    passes all of them. [time.Now().After(cert.NotAfter)] is [NotAfter < now]. *)
Definition validLeaf (gun : string) (cert : Certificate) : bool :=
  String.eqb (CommonName cert) gun
  && negb (NotAfter cert <? now)
  && negb (usesSHA1 cert).

Definition validRootLeafCerts (root : SignedRoot) (gun : string)
  : result (list Certificate) :=
  let allLeafCerts := fst (parseAllCerts root) in
  let validLeafCerts :=
    List.filter (validLeaf gun) (List.map snd (mapRange allLeafCerts)) in
  if (Z.of_nat (length validLeafCerts) <? 1)
  then Err (ErrOther "no valid leaf certificates found in any of the root keys")
  else Ok validLeafCerts.

(** ** [certsToRemove] *)

Definition addNewCertID (newCertMap : gset string) (cert : Certificate) : gset string :=
  match FingerprintCert cert with
  | Err _ => newCertMap
  | Ok certID => {[certID]} ∪ newCertMap
  end.

Definition keepIfAbsent (newCertMap : gset string)
    (certsToRemove : gmap string Certificate) (cert : Certificate)
  : gmap string Certificate :=
  match FingerprintCert cert with
  | Err _ => certsToRemove
  | Ok certID =>
    if bool_decide (certID ∈ newCertMap) then certsToRemove
    else <[certID := cert]> certsToRemove
  end.

Definition certsToRemove (oldCerts newCerts : list Certificate)
  : gmap string Certificate :=
  if (length newCerts =? 0)%nat then ∅
  else
    let newCertMap := foldl addNewCertID ∅ newCerts in
    foldl (keepIfAbsent newCertMap) ∅ oldCerts.

(** ** [ValidateRoot] *)

(** The loop over [allValidCerts] that looks for the pinned certificate
    ID; it stops at the first match. *)
Fixpoint findPinnedCert (pinnedID : string) (certs : list Certificate)
  : option Certificate :=
  match certs with
  | [] => None
  | cert :: rest =>
    match FingerprintCert cert with
    | Err _ => findPinnedCert pinnedID rest
    | Ok certID =>
      if String.eqb certID pinnedID then Some cert
      else findPinnedCert pinnedID rest
    end
  end.

(** The test of the inner loop of the CA branch: the certificate is kept
    when it has a fingerprint and its chain to [caCert] verifies, with the
    intermediates that the root bundles under the same ID. *)
Definition chainVerifies (signedRoot : SignedRoot) (caCert cert : Certificate) : bool :=
  match FingerprintCert cert with
  | Err _ => false
  | Ok certID =>
    let caIntPool :=
      match snd (parseAllCerts signedRoot) !! certID with
      | Some intermediateCertList => intermediateCertList
      | None => []
      end in
    match x509Verify cert [caCert] caIntPool with
    | None => true
    | Some _ => false
    end
  end.

(** The loop over the entries of [trustPinning.CA]. *)
Fixpoint pinByCA (signedRoot : SignedRoot) (gun : string)
    (cas : list (string * string)) (allValidCerts : list Certificate)
  : result (list Certificate) :=
  match cas with
  | [] => Ok allValidCerts
  | (caGunPrefix, caFilepath) :: rest =>
    if HasPrefix gun caGunPrefix then
      match LoadCertFromFile caFilepath with
      | Err _ => Err (ErrValidationFail "failed to load specified CA trust pin")
      | Ok caCert =>
        match ValidateCertificate caCert with
        | Some _ => Err (ErrValidationFail "failed to validate specified CA trust pin")
        | None =>
          let validCertsForCA :=
            List.filter (chainVerifies signedRoot caCert) allValidCerts in
          pinByCA signedRoot gun rest validCertsForCA
        end
      end
    else pinByCA signedRoot gun rest allValidCerts
  end.

(** The branch taken when the store has no certificate for the GUN. *)
Definition bootstrapTrust (signedRoot : SignedRoot) (gun : string)
    (trustPinning : TrustPinConfig) (allValidCerts : list Certificate)
  : result (list Certificate) :=
  match Certs trustPinning !! gun with
  | Some pinnedID =>
    match findPinnedCert pinnedID allValidCerts with
    | Some cert => Ok [cert]
    | None => Err (ErrValidationFail "failed to find matching certificate ID ")
    end
  | None =>
    if ContainsKeyPrefix (CA trustPinning) gun then
      if (0 <? size (CA trustPinning))%nat
      then pinByCA signedRoot gun (mapRange (CA trustPinning)) allValidCerts
      else Ok allValidCerts
    else if negb (TOFU trustPinning) then
      Err (ErrValidationFail "could not bootstrap trust without trust_pinning configuration")
    else Ok allValidCerts
  end.

(** First rotation loop: every certificate is added, whatever [AddCert]
    answers. *)
Fixpoint addCerts (certStore : S) (certs : list Certificate) : S :=
  match certs with
  | [] => certStore
  | cert :: rest => addCerts (fst (AddCert certStore cert)) rest
  end.

(** Second rotation loop: the first failing removal ends the call. *)
Fixpoint removeCerts (certStore : S) (certs : list (string * Certificate))
  : S * option error :=
  match certs with
  | [] => (certStore, None)
  | (certID, cert) :: rest =>
    match RemoveCert certStore cert with
    | (certStore', Some _) =>
      (certStore', Some (ErrRootRotationFail "failed to rotate root keys"))
    | (certStore', None) => removeCerts certStore' rest
    end
  end.

(** The rotation at the end of [ValidateRoot]. *)
Definition rotateCerts (certStore : S) (certsForCN allValidCerts : list Certificate)
  : S * option error :=
  removeCerts (addCerts certStore allValidCerts)
              (mapRange (certsToRemove certsForCN allValidCerts)).

(** The part of [ValidateRoot] between the store lookup and the rotation:
    it yields the certificates found in the store and the accepted set. *)
Definition decideTrust (certStore : S) (root : Signed) (signedRoot : SignedRoot)
    (gun : string) (trustPinning : TrustPinConfig) (allValidCerts : list Certificate)
  : result (list Certificate * list Certificate) :=
  let '(certsForCN, err) := GetCertificatesByCN certStore gun in
  if match err with
     | Some e => negb (isErrNoCertificatesFound e)
     | None => false
     end
  then Err (ErrValidationFail "unable to retrieve trusted certificates")
  else
    let pinned :=
      if negb (length certsForCN =? 0)%nat then
        match VerifyRoot root 0 (CertsToKeys certsForCN) with
        | Some _ =>
          Err (ErrValidationFail "failed to validate data with current trusted certificates")
        | None => Ok allValidCerts
        end
      else bootstrapTrust signedRoot gun trustPinning allValidCerts in
    match pinned with
    | Err e => Err e
    | Ok allValidCerts =>
      match VerifyRoot root 0 (CertsToKeys allValidCerts) with
      | Some _ => Err (ErrValidationFail "failed to validate integrity of roots")
      | None => Ok (certsForCN, allValidCerts)
      end
    end.

Definition ValidateRoot (certStore : S) (root : Signed) (gun : string)
    (trustPinning : TrustPinConfig) : S * option error :=
  match RootFromSigned root with
  | Err err => (certStore, Some err)
  | Ok signedRoot =>
    match validRootLeafCerts signedRoot gun with
    | Err _ =>
      (certStore, Some (ErrValidationFail "unable to retrieve valid leaf certificates"))
    | Ok allValidCerts =>
      match decideTrust certStore root signedRoot gun trustPinning allValidCerts with
      | Err e => (certStore, Some e)
      | Ok (certsForCN, allValidCerts) =>
        rotateCerts certStore certsForCN allValidCerts
      end
    end
  end.

(** ** Notions used in the statements *)

(** Some removal of the second rotation loop fails: the removals before
    it succeed, and [RemoveCert] then reports an error. *)
Definition removalFails (certStore : S) (certs : list (string * Certificate)) : Prop :=
  exists (before : list (string * Certificate)) certID cert after certStore',
    certs = (before ++ (certID, cert) :: after)%list /\
    removeCerts certStore before = (certStore', None) /\
    snd (RemoveCert certStore' cert) <> None.

(** The chain of [cert] verifies against the CA of every entry of [cas]
    whose prefix matches the GUN. *)
Definition verifiesAll (signedRoot : SignedRoot) (gun : string)
    (cas : list (string * string)) (cert : Certificate) : bool :=
  forallb (fun ca : string * string =>
             if HasPrefix gun (fst ca) then
               match LoadCertFromFile (snd ca) with
               | Ok caCert => chainVerifies signedRoot caCert cert
               | Err _ => false
               end
             else true) cas.

(** A pin can be used: if its prefix matches, its file holds a
    certificate that passes [ValidateCertificate]. *)
Definition usablePin (gun : string) (ca : string * string) : Prop :=
  HasPrefix gun (fst ca) = true ->
  exists caCert, LoadCertFromFile (snd ca) = Ok caCert /\ ValidateCertificate caCert = None.

(** The entries of [cas] whose prefix matches the GUN, in iteration order. *)
Definition matchingCAs (gun : string) (cas : list (string * string))
  : list (string * string) :=
  List.filter (fun ca => HasPrefix gun (fst ca)) cas.

(** The spec's reading of the CA pin, "last match wins": the retained set
    is what the last matching CA alone retains of the candidate leaves. *)
Definition lastMatchWins (signedRoot : SignedRoot) (gun : string)
    (trustPinning : TrustPinConfig) (allValidCerts : list Certificate) : Prop :=
  forall retained,
    bootstrapTrust signedRoot gun trustPinning allValidCerts = Ok retained ->
    exists caGunPrefix caFilepath caCert,
      last (matchingCAs gun (mapRange (CA trustPinning))) = Some (caGunPrefix, caFilepath) /\
      LoadCertFromFile caFilepath = Ok caCert /\
      retained = List.filter (chainVerifies signedRoot caCert) allValidCerts.

(** The spec's reading of the verification step: when the store holds
    certificates for the GUN, the signatures are checked against these
    certificates and against no other set, so a root that verifies against
    them is not rejected. *)
Definition verifiedByTrustedSetOnly (certStore : S) (root : Signed) (gun : string)
    (trustPinning : TrustPinConfig) : Prop :=
  forall signedRoot leaves certsForCN,
    RootFromSigned root = Ok signedRoot ->
    validRootLeafCerts signedRoot gun = Ok leaves ->
    GetCertificatesByCN certStore gun = (certsForCN, None) ->
    certsForCN <> [] ->
    VerifyRoot root 0 (CertsToKeys certsForCN) = None ->
    forall reason,
      snd (ValidateRoot certStore root gun trustPinning) <> Some (ErrValidationFail reason).

(** A law of well-behaved stores: removing a certificate leaves every
    certificate with another fingerprint among those of its GUN. *)
Definition removalSparesOthers : Prop :=
  forall (certStore : S) (cert other : Certificate) (gun : string),
    other ∈ fst (GetCertificatesByCN certStore gun) ->
    FingerprintCert other <> FingerprintCert cert ->
    other ∈ fst (GetCertificatesByCN (fst (RemoveCert certStore cert)) gun).

(** The invariant read as a property of every call: a GUN that has
    trusted certificates before [ValidateRoot] has some after it. *)
Definition neverLosesAllTrust (certStore : S) (root : Signed) (gun : string)
    (trustPinning : TrustPinConfig) : Prop :=
  fst (GetCertificatesByCN certStore gun) <> [] ->
  fst (GetCertificatesByCN (fst (ValidateRoot certStore root gun trustPinning)) gun) <> [].

(** The leaf [cert] and the intermediates [ints] come from the bundle of
    one key of the root role, and [leafID] is the leaf's fingerprint. *)
Definition fromRootBundle (signedRoot : SignedRoot) (leafID : string)
    (cert : Certificate) (ints : list Certificate) : Prop :=
  exists rootRoles keyID key decodedCerts,
    Roles signedRoot !! "root" = Some rootRoles /\
    keyID ∈ KeyIDs rootRoles /\
    Keys signedRoot !! keyID = Some key /\
    LoadCertBundleFromPEM (Public key) = Ok decodedCerts /\
    GetLeafCerts decodedCerts = [cert] /\
    FingerprintCert cert = Ok leafID /\
    GetIntermediateCerts decodedCerts = ints.

(** Both maps have the same IDs, and what they hold under an ID comes from
    one bundle among the key IDs [keyIDs]. *)
Definition paired (signedRoot : SignedRoot)
    (acc : gmap string Certificate * gmap string (list Certificate)) : Prop :=
  forall leafID,
    match fst acc !! leafID, snd acc !! leafID with
    | Some cert, Some ints => fromRootBundle signedRoot leafID cert ints
    | None, None => True
    | _, _ => False
    end.

End Validator.

(** The store [store] with the errors reported by [AddCert] replaced by
    [answer]; the store's states are the same. *)
Definition withAddErrors {S : Type} (store : X509Store S)
    (answer : S -> Certificate -> option error) : X509Store S := {|
  GetCertificatesByCN := @GetCertificatesByCN S store;
  AddCert := fun certStore cert => (fst (@AddCert S store certStore cert), answer certStore cert);
  RemoveCert := @RemoveCert S store
|}.

(** [ErrValidationFail.Error] and [ErrRootRotationFail.Error]. *)
Definition ErrValidationFail_Error (Reason : string) : string :=
  "could not validate the path to a trusted root: " ++ Reason.

Definition ErrRootRotationFail_Error (Reason : string) : string :=
  "could not rotate trust to a new trusted root: " ++ Reason.

End Certs.

Module Timestamp.

(** ** Metadata *)

Definition CanonicalRootRole : string := "root".
Definition CanonicalSnapshotRole : string := "snapshot".
Definition CanonicalTimestampRole : string := "timestamp".

(** [data.FileMeta]. *)
Record FileMeta : Type := {
  Length : Z;
  Hashes : gmap string string
}.

(** [data.SignedTimestamp]: [Signed.Expires], [Signed.Version] and
    [Signed.Meta]. *)
Record SignedTimestamp : Type := {
  Expires : Z;
  Version : Z;
  Meta : gmap string FileMeta
}.

(** [storage.MetaUpdate]. *)
Record MetaUpdate : Type := {
  Role : string;
  UpdateVersion : Z;   (* Version *)
  Data : string
}.

(** ** Collaborators *)

(** [storage.MetaStore]; every method may change the store's state (the
    key store of the tests does so in [GetKey]). [GetCurrent] yields the
    modification time and the bytes. *)
Class MetaStore (S : Type) : Type := {
  GetCurrent : S -> string -> string -> S * result (Z * string);
  UpdateCurrent : S -> string -> MetaUpdate -> S * option error;
  GetKey : S -> string -> string -> S * result (string * string);
  SetKey : S -> string -> string -> string -> string -> S * option error
}.

(** [signed.CryptoService], as far as the registry uses it. *)
Class CryptoService (K : Type) : Type := {
  Create : K -> string -> string -> string -> K * result PublicKey
}.

(** What the timestamp package uses of [tuf], [tuf/data], [tuf/signed],
    [json], [time] and of the [snapshot] package. [Repo] is [tuf.Repo];
    [repoTimestampVersion] reads [repo.Timestamp.Signed.Version]. *)
Class Externals (S K : Type) : Type := {
  now : Z;                                                     (* time.Now() *)
  IsExpired : Z -> bool;                                       (* signed *)
  CheckHashes : string -> gmap string string -> option error;  (* data *)
  DefaultExpires : string -> Z;
  SignedSnapshot : Type;
  unmarshalTimestamp : string -> result SignedTimestamp;       (* json.Unmarshal *)
  unmarshalRoot : string -> result SignedRoot;
  unmarshalSnapshot : string -> result SignedSnapshot;
  marshalSigned : Signed -> result string;                     (* json.Marshal *)
  Repo : Type;
  NewRepo : Repo;
  SetRoot : Repo -> SignedRoot -> Repo;
  SetSnapshot : Repo -> SignedSnapshot -> Repo;
  SetTimestamp : Repo -> SignedTimestamp -> Repo;
  InitTimestamp : Repo -> result Repo;
  SignTimestamp : Repo -> Z -> K -> K * result (Repo * Signed);
  repoTimestampVersion : Repo -> Z;
  (* snapshot.GetOrCreateSnapshot(gun, store, cryptoService) *)
  GetOrCreateSnapshot : string -> S -> K -> (S * K) * result (Z * string)
}.

(** The calls made to the store and to the crypto service. *)
Inductive Call : Type :=
| CallGetCurrent (gun role : string)
| CallUpdateCurrent (gun : string) (update : MetaUpdate)
| CallGetKey (gun role : string)
| CallSetKey (gun role algorithm public : string)
| CallCreate (role gun algorithm : string)
| CallSignTimestamp (expires : Z)
| CallGetOrCreateSnapshot (gun : string).

Section Engine.
Context {S K : Type} {metaStore : MetaStore S} {cryptoService : CryptoService K}
        {ext : Externals S K}.

(** The state a call runs in: the store, the crypto service, and the log
    of the calls made to them so far. *)
Record World : Type := {
  store : S;
  crypto : K;
  calls : list Call
}.

(** Computations that read and change the world. *)
Definition M (A : Type) : Type := World -> A * World.

Definition ret {A : Type} (a : A) : M A := fun w => (a, w).

Definition bind {A B : Type} (c : M A) (k : A -> M B) : M B :=
  fun w => let '(a, w') := c w in k a w'.

Notation "x <- c ;; k" := (bind c (fun x => k))
  (at level 100, c at next level, right associativity).

Definition storeGetCurrent (gun role : string) : M (result (Z * string)) :=
  fun w =>
    let '(s, r) := GetCurrent (store w) gun role in
    (r, {| store := s; crypto := crypto w;
           calls := calls w ++ [CallGetCurrent gun role] |}).

Definition storeUpdateCurrent (gun : string) (update : MetaUpdate) : M (option error) :=
  fun w =>
    let '(s, r) := UpdateCurrent (store w) gun update in
    (r, {| store := s; crypto := crypto w;
           calls := calls w ++ [CallUpdateCurrent gun update] |}).

Definition storeGetKey (gun role : string) : M (result (string * string)) :=
  fun w =>
    let '(s, r) := GetKey (store w) gun role in
    (r, {| store := s; crypto := crypto w;
           calls := calls w ++ [CallGetKey gun role] |}).

Definition storeSetKey (gun role algorithm public : string) : M (option error) :=
  fun w =>
    let '(s, r) := SetKey (store w) gun role algorithm public in
    (r, {| store := s; crypto := crypto w;
           calls := calls w ++ [CallSetKey gun role algorithm public] |}).

Definition cryptoCreate (role gun algorithm : string) : M (result PublicKey) :=
  fun w =>
    let '(k, r) := Create (crypto w) role gun algorithm in
    (r, {| store := store w; crypto := k;
           calls := calls w ++ [CallCreate role gun algorithm] |}).

Definition repoSignTimestamp (repo : Repo) (expires : Z) : M (result (Repo * Signed)) :=
  fun w =>
    let '(k, r) := SignTimestamp repo expires (crypto w) in
    (r, {| store := store w; crypto := k;
           calls := calls w ++ [CallSignTimestamp expires] |}).

Definition snapshotGetOrCreateSnapshot (gun : string) : M (result (Z * string)) :=
  fun w =>
    let '((s, k), r) := GetOrCreateSnapshot gun (store w) (crypto w) in
    (r, {| store := s; crypto := k;
           calls := calls w ++ [CallGetOrCreateSnapshot gun] |}).

(** ** [GetOrCreateTimestampKey] *)

Definition GetOrCreateTimestampKey (gun createAlgorithm : string)
  : M (result PublicKey) :=
  r <- storeGetKey gun CanonicalTimestampRole ;;
  match r with
  | Ok (keyAlgorithm, public) => ret (Ok (NewPublicKey keyAlgorithm public))
  | Err err =>
    if isErrNoKey err then
      created <- cryptoCreate "timestamp" gun createAlgorithm ;;
      match created with
      | Err err => ret (Err err)
      | Ok key =>
        set <- storeSetKey gun CanonicalTimestampRole (Algorithm key) (Public key) ;;
        match set with
        | None => ret (Ok key)
        | Some err =>
          if isErrKeyExists err then
            r <- storeGetKey gun CanonicalTimestampRole ;;
            match r with
            | Err err => ret (Err err)
            | Ok (keyAlgorithm, public) =>
              ret (Ok (NewPublicKey keyAlgorithm public))
            end
          else ret (Err err)
        end
      end
    else ret (Err err)
  end.

(** Modelled from the spec: [GetOrCreateSnapshotKey] belongs to the
    [snapshot] package, of which only the tests are available. Section 4.2
    of the spec gives one registry algorithm for both roles: [GetKey]; on
    "no key" [Create], then [SetKey]; on "key already exists" re-read with
    [GetKey]; every other failure is propagated. *)
Definition GetOrCreateKey (gun role algorithmHint : string) : M (result PublicKey) :=
  found <- storeGetKey gun role ;;
  match found with
  | Ok (algorithm, publicKeyBytes) => ret (Ok (NewPublicKey algorithm publicKeyBytes))
  | Err err =>
    if isErrNoKey err then
      created <- cryptoCreate role gun algorithmHint ;;
      match created with
      | Err err => ret (Err err)
      | Ok key =>
        set <- storeSetKey gun role (Algorithm key) (Public key) ;;
        match set with
        | None => ret (Ok key)
        | Some err =>
          if isErrKeyExists err then
            again <- storeGetKey gun role ;;
            match again with
            | Err err => ret (Err err)
            | Ok (algorithm, publicKeyBytes) =>
              ret (Ok (NewPublicKey algorithm publicKeyBytes))
            end
          else ret (Err err)
        end
      end
    else ret (Err err)
  end.

Definition GetOrCreateSnapshotKey (gun createAlgorithm : string)
  : M (result PublicKey) :=
  GetOrCreateKey gun CanonicalSnapshotRole createAlgorithm.

(** ** [GetOrCreateTimestamp] *)

Definition timestampExpired (ts : SignedTimestamp) : bool :=
  IsExpired (Expires ts).

(** [ts.Signed.Meta[data.CanonicalSnapshotRole].Hashes]: a missing entry
    reads as the zero [FileMeta], whose [Hashes] is the empty map. *)
Definition snapshotHashes (ts : SignedTimestamp) : gmap string string :=
  match Meta ts !! CanonicalSnapshotRole with
  | Some meta => Hashes meta
  | None => ∅
  end.

Definition snapshotExpired (ts : SignedTimestamp) (snapshot : string) : bool :=
  match CheckHashes snapshot (snapshotHashes ts) with
  | Some _ => true
  | None => false
  end.

(** [prev] is a pointer in the source: [None] is [nil]. *)
Definition NewTimestampUpdate (prev : option SignedTimestamp) (repo : Repo)
  : M (result MetaUpdate) :=
  match
    match prev with
    | Some prev => Ok (SetTimestamp repo prev)
    | None => InitTimestamp repo
    end
  with
  | Err err => ret (Err err)
  | Ok repo =>
    signed <- repoSignTimestamp repo (DefaultExpires CanonicalTimestampRole) ;;
    match signed with
    | Err err => ret (Err err)
    | Ok (repo, sgnd) =>
      match marshalSigned sgnd with
      | Err err => ret (Err err)
      | Ok sgndJSON =>
        ret (Ok {| Role := CanonicalTimestampRole;
                   UpdateVersion := repoTimestampVersion repo;
                   Data := sgndJSON |})
      end
    end
  end.

Definition createTimestamp (gun : string) (prev : option SignedTimestamp)
    (snapshot : string) : M (result MetaUpdate) :=
  let repo := NewRepo in
  current <- storeGetCurrent gun CanonicalRootRole ;;
  match current with
  | Err err => ret (Err err)
  | Ok (_, root) =>
    match unmarshalRoot root with
    | Err err => ret (Err err)
    | Ok r =>
      let repo := SetRoot repo r in
      match unmarshalSnapshot snapshot with
      | Err err => ret (Err err)
      | Ok sn =>
        let repo := SetSnapshot repo sn in
        NewTimestampUpdate prev repo
      end
    end
  end.

Definition GetOrCreateTimestamp (gun : string) : M (result (Z * string)) :=
  current <- storeGetCurrent gun CanonicalTimestampRole ;;
  match current with
  | Err err => ret (Err err)
  | Ok (lastModified, timestampJSON) =>
    match unmarshalTimestamp timestampJSON with
    | Err err => ret (Err err)
    | Ok prev =>
      sn <- snapshotGetOrCreateSnapshot gun ;;
      match sn with
      | Err err => ret (Err err)
      | Ok (_, snapshot) =>
        if negb (timestampExpired prev) && negb (snapshotExpired prev snapshot)
        then ret (Ok (lastModified, timestampJSON))
        else
          created <- createTimestamp gun (Some prev) snapshot ;;
          match created with
          | Err err => ret (Err err)
          | Ok update =>
            let c := now in
            updated <- storeUpdateCurrent gun update ;;
            match updated with
            | Some err => ret (Err err)
            | None => ret (Ok (c, Data update))
            end
          end
      end
    end
  end.

(** ** Notions used in the statements *)

(** The world [w] after the calls [made], which leave the store in state
    [s] and the crypto service in state [k]. *)
Definition after (w : World) (s : S) (k : K) (made : list Call) : World :=
  {| store := s; crypto := k; calls := calls w ++ made |}.

(** Every computation of the engine only adds to the log of calls. *)
Definition extends (w w' : World) : Prop :=
  exists made : list Call, calls w' = (calls w ++ made)%list.

(** What the engine does once the stored timestamp is found stale. *)
Definition regenerate (gun : string) (prev : SignedTimestamp) (snapshot : string)
  : M (result (Z * string)) :=
  fun w2 =>
    let '(created, w3) := createTimestamp gun (Some prev) snapshot w2 in
    match created with
    | Err err => (Err err, w3)
    | Ok update =>
      let '(s4, updated) := UpdateCurrent (store w3) gun update in
      (match updated with
       | Some err => Err err
       | None => Ok (now, Data update)
       end,
       after w3 s4 (crypto w3) [CallUpdateCurrent gun update])
    end.

End Engine.

Arguments World : clear implicits.

End Timestamp.

(** * Implementations of the collaborators used to run the code *)

Module CertsFixtures.
Import Certs.

(** ** Certificate store kept in memory *)

(** The trusted certificates, and the answers the store gives when it is
    made to fail. *)
Record TestStore : Type := {
  trusted : list Certificate;
  addError : option error;
  removeError : option error
}.

Definition sameCert (a b : Certificate) : bool := String.eqb (Raw a) (Raw b).

Definition testGetCertificatesByCN (st : TestStore) (cn : string)
  : list Certificate * option error :=
  match List.filter (fun c => String.eqb (CommonName c) cn) (trusted st) with
  | [] => ([], Some ErrNoCertificatesFound)
  | found => (found, None)
  end.

Definition testAddCert (st : TestStore) (cert : Certificate) : TestStore * option error :=
  match addError st with
  | Some e => (st, Some e)
  | None =>
    if existsb (sameCert cert) (trusted st) then (st, Some ErrCertExists)
    else ({| trusted := trusted st ++ [cert];
             addError := addError st; removeError := removeError st |}, None)
  end.

Definition testRemoveCert (st : TestStore) (cert : Certificate) : TestStore * option error :=
  match removeError st with
  | Some e => (st, Some e)
  | None =>
    if existsb (sameCert cert) (trusted st)
    then ({| trusted := List.filter (fun c => negb (sameCert cert c)) (trusted st);
             addError := addError st; removeError := removeError st |}, None)
    else (st, Some (ErrOther "certificate not found"))
  end.

#[export] Instance testStore : X509Store TestStore := {
  GetCertificatesByCN := testGetCertificatesByCN;
  AddCert := testAddCert;
  RemoveCert := testRemoveCert
}.

(** ** Collaborators of the validator *)

Definition lookupOr {A : Type} (table : gmap string A) (msg : string) (k : string)
  : result A :=
  match table !! k with
  | Some a => Ok a
  | None => Err (ErrOther msg)
  end.

(** A certificate's key: its ID is the fingerprint, here the raw bytes. *)
Definition testCertsToKeys (certs : list Certificate) : gmap string PublicKey :=
  list_to_map (List.map (fun c => (Raw c, NewPublicKey "x509" (Raw c))) certs).

(** A signature is valid for a key when it was made with that key. *)
Definition validSignature (keys : gmap string PublicKey) (sig : Signature) : bool :=
  match keys !! KeyID sig with
  | Some key => String.eqb (SignatureBytes sig) ("signed-by:" ++ Public key)
  | None => false
  end.

(** Modelled from the spec: [signed.VerifyRoot] is not among the embedded
    files; by the spec "any one valid signature from the set suffices". *)
Definition testVerifyRoot (s : Signed) (_ : Z) (keys : gmap string PublicKey)
  : option error :=
  if existsb (validSignature keys) (Signatures s) then None
  else Some (ErrOther "valid signatures did not meet threshold").

(** Chains of length one or two: [issuers] maps a certificate to the
    certificate that signed it. *)
Definition testVerifyChain (issuers : gmap string string)
    (cert : Certificate) (roots intermediates : list Certificate) : option error :=
  let signedByRoot (c : string) : bool :=
    match issuers !! c with
    | Some i => existsb (fun r => String.eqb (Raw r) i) roots
    | None => false
    end in
  match issuers !! Raw cert with
  | None => Some (ErrOther "x509: certificate signed by unknown authority")
  | Some i =>
    if signedByRoot (Raw cert)
       || (existsb (fun m => String.eqb (Raw m) i) intermediates && signedByRoot i)
    then None
    else Some (ErrOther "x509: certificate signed by unknown authority")
  end.

Definition testValidateCertificate (clock : Z) (c : Certificate) : option error :=
  if IsCA c && negb (NotAfter c <? clock) && negb (usesSHA1 c) then None
  else Some (ErrOther "invalid certificate").

(** The collaborators, given the clock, the root documents and PEM
    bundles that decode, the certificate files and the issuers. *)
Definition testExternals (clock : Z) (roots : gmap string SignedRoot)
    (bundles : gmap string (list Certificate)) (files : gmap string Certificate)
    (issuers : gmap string string) : Externals := {|
  now := clock;
  RootFromSigned := fun s => lookupOr roots "invalid root" (SignedPayload s);
  LoadCertBundleFromPEM := lookupOr bundles "no valid certificates found";
  GetLeafCerts := List.filter (fun c => negb (IsCA c));
  GetIntermediateCerts := List.filter IsCA;
  FingerprintCert := fun c => Ok (Raw c);
  CertsToKeys := testCertsToKeys;
  LoadCertFromFile := lookupOr files "no such file";
  ValidateCertificate := testValidateCertificate clock;
  VerifyRoot := testVerifyRoot;
  x509Verify := testVerifyChain issuers;
  mapRange := fun A m => map_to_list m;
  mapRange_perm := fun A m => reflexivity (map_to_list m)
|}.

(** ** A repository and its certificates *)

Definition gun : string := "example.com/repo".

Definition leaf (raw : string) (notAfter : Z) (alg : SignatureAlgorithm) : Certificate :=
  {| Raw := raw; CommonName := gun; NotAfter := notAfter; SigAlg := alg; IsCA := false |}.

Definition authority (raw : string) : Certificate :=
  {| Raw := raw; CommonName := raw; NotAfter := 5000; SigAlg := SHA256WithRSA;
     IsCA := true |}.

Definition certA : Certificate := leaf "cert-A" 2000 SHA256WithRSA.
Definition certB : Certificate := leaf "cert-B" 2000 ECDSAWithSHA256.
Definition certExpired : Certificate := leaf "cert-old" 500 SHA256WithRSA.
Definition certSHA1 : Certificate := leaf "cert-sha1" 2000 SHA1WithRSA.
Definition ca1 : Certificate := authority "ca-1".
Definition ca2 : Certificate := authority "ca-2".

(** A root document whose root role lists one key per given bundle. *)
Definition rootWith (bundleNames : list string) : SignedRoot :=
  {| Roles := {[ "root" := {| KeyIDs := bundleNames |} ]};
     Keys := list_to_map (List.map (fun b => (b, NewPublicKey "ecdsa-x509" b)) bundleNames) |}.

Definition signedBy (payload : string) (signers : list Certificate) : Signed :=
  {| SignedPayload := payload;
     Signatures :=
       List.map (fun c => {| KeyID := Raw c; Method := "ecdsa";
                             SignatureBytes := "signed-by:" ++ Raw c |}) signers |}.

Definition roots : gmap string SignedRoot :=
  list_to_map [("root-A", rootWith ["pem-A"]);
               ("root-B", rootWith ["pem-B"]);
               ("root-AB", rootWith ["pem-A"; "pem-B"]);
               ("root-bad", rootWith ["pem-old"; "pem-sha1"])].

Definition bundles : gmap string (list Certificate) :=
  list_to_map [("pem-A", [certA]); ("pem-B", [certB]);
               ("pem-old", [certExpired]); ("pem-sha1", [certSHA1])].

Definition files : gmap string Certificate :=
  list_to_map [("ca-1.crt", ca1); ("ca-2.crt", ca2)].

(** [ca1] issued [certA], [ca2] issued [certB]. *)
Definition issuers : gmap string string :=
  list_to_map [("cert-A", "ca-1"); ("cert-B", "ca-2")].

#[export] Instance externals : Externals := testExternals 1000 roots bundles files issuers.

Definition storeWith (certs : list Certificate) : TestStore :=
  {| trusted := certs; addError := None; removeError := None |}.

Definition tofu : TrustPinConfig := {| CA := ∅; Certs := ∅; TOFU := true |}.
Definition noTrust : TrustPinConfig := {| CA := ∅; Certs := ∅; TOFU := false |}.

(** Two CA pins whose prefixes both match [gun]. *)
Definition twoCAs : TrustPinConfig :=
  {| CA := list_to_map [("example.com/", "ca-1.crt"); ("example.com/repo", "ca-2.crt")];
     Certs := ∅; TOFU := false |}.

(** A store that trusts [certA] and refuses every addition. *)
Definition addFailingStore : TestStore :=
  {| trusted := [certA];
     addError := Some (ErrOther "disk full");
     removeError := None |}.

(** A store that refuses every addition and every removal. *)
Definition brokenStore : TestStore :=
  {| trusted := [certA];
     addError := Some (ErrOther "disk full");
     removeError := Some (ErrOther "disk full") |}.

(** A pin for another repository. *)
Definition otherCA : TrustPinConfig :=
  {| CA := {[ "other.org/" := "ca-1.crt" ]}; Certs := ∅; TOFU := false |}.

(** [certB] is pinned for the repository. *)
Definition pinnedB : TrustPinConfig :=
  {| CA := ∅; Certs := {[ gun := "cert-B" ]}; TOFU := false |}.

(** A certificate store that cannot be read. *)
Inductive Offline : Type := offline.

#[export] Instance offlineStore : X509Store Offline := {
  GetCertificatesByCN := fun _ _ => ([], Some (ErrOther "store unavailable"));
  AddCert := fun st _ => (st, Some (ErrOther "store unavailable"));
  RemoveCert := fun st _ => (st, Some (ErrOther "store unavailable"))
}.

End CertsFixtures.

Module TimestampFixtures.
Import Timestamp.

(** ** The key store of the snapshot tests *)

(** [keyStore] of [snapshot_test.go]: the first [GetKey] finds no key,
    the later ones find [k]; [SetKey] always reports that the key exists.
    The test type has no other method; the two remaining methods of the
    class, which the registry never calls, find nothing. *)
Record keyStore : Type := {
  getCalled : bool;
  k : PublicKey
}.

Definition keyStoreGetKey (ks : keyStore) (gun role : string)
  : keyStore * result (string * string) :=
  ({| getCalled := true; k := k ks |},
   if getCalled ks then Ok (Algorithm (k ks), Public (k ks)) else Err ErrNoKey).

Definition keyStoreSetKey (ks : keyStore) (gun role algorithm public : string)
  : keyStore * option error :=
  (ks, Some ErrKeyExists).

#[export] Instance keyStoreMetaStore : MetaStore keyStore := {
  GetCurrent := fun ks _ _ => (ks, Err ErrNotFound);
  UpdateCurrent := fun ks _ _ => (ks, None);
  GetKey := keyStoreGetKey;
  SetKey := keyStoreSetKey
}.

(** ** A store that cannot be reached *)

Inductive Unreachable : Type := unreachable.

#[export] Instance unreachableMetaStore : MetaStore Unreachable := {
  GetCurrent := fun s _ _ => (s, Err (ErrOther "connection refused"));
  UpdateCurrent := fun s _ _ => (s, Some (ErrOther "connection refused"));
  GetKey := fun s _ _ => (s, Err (ErrOther "connection refused"));
  SetKey := fun s _ _ _ _ => (s, Some (ErrOther "connection refused"))
}.

(** ** Metadata store kept in memory *)

(** Per GUN and role: the current version with its modification time and
    bytes, and the signing key. *)
Record MemStorage : Type := {
  tufMeta : gmap (string * string) (Z * Z * string);
  keys : gmap (string * string) (string * string)
}.

Definition memGetCurrent (st : MemStorage) (gun role : string)
  : MemStorage * result (Z * string) :=
  match tufMeta st !! (gun, role) with
  | Some (modified, _, data) => (st, Ok (modified, data))
  | None => (st, Err ErrNotFound)
  end.

Definition memUpdateCurrent (clock : Z) (st : MemStorage) (gun : string)
    (update : MetaUpdate) : MemStorage * option error :=
  let write :=
    {| tufMeta := <[(gun, Role update) := (clock, UpdateVersion update, Data update)]>
                    (tufMeta st);
       keys := keys st |} in
  match tufMeta st !! (gun, Role update) with
  | Some (_, version, _) =>
    if UpdateVersion update <=? version then (st, Some (ErrOther "old version"))
    else (write, None)
  | None => (write, None)
  end.

Definition memGetKey (st : MemStorage) (gun role : string)
  : MemStorage * result (string * string) :=
  match keys st !! (gun, role) with
  | Some key => (st, Ok key)
  | None => (st, Err ErrNoKey)
  end.

Definition memSetKey (st : MemStorage) (gun role algorithm public : string)
  : MemStorage * option error :=
  match keys st !! (gun, role) with
  | Some _ => (st, Some ErrKeyExists)
  | None =>
    ({| tufMeta := tufMeta st; keys := <[(gun, role) := (algorithm, public)]> (keys st) |},
     None)
  end.

Definition clock : Z := 1000.

#[export] Instance memMetaStore : MetaStore MemStorage := {
  GetCurrent := memGetCurrent;
  UpdateCurrent := memUpdateCurrent clock;
  GetKey := memGetKey;
  SetKey := memSetKey
}.

(** ** Crypto service: the keys created so far *)

Definition testCreate (created : list PublicKey) (role gun algorithm : string)
  : list PublicKey * result PublicKey :=
  let key := NewPublicKey algorithm (role ++ "-key-of-" ++ gun) in
  ((created ++ [key])%list, Ok key).

#[export] Instance testCrypto : CryptoService (list PublicKey) := {
  Create := testCreate
}.

(** ** The remaining collaborators *)

Definition hashOf (payload : string) : string := "sha256-of-" ++ payload.

Definition testCheckHashes (payload : string) (hashes : gmap string string)
  : option error :=
  match hashes !! "sha256" with
  | Some h =>
    if String.eqb h (hashOf payload) then None else Some (ErrOther "checksum mismatch")
  | None => Some (ErrOther "at least one supported hash needed")
  end.

Definition snapshotMeta (snapshot : string) : gmap string FileMeta :=
  {[ CanonicalSnapshotRole :=
       {| Length := Z.of_nat (String.length snapshot);
          Hashes := {[ "sha256" := hashOf snapshot ]} |} ]}.

Record TestRepo : Type := {
  repoRoot : option SignedRoot;
  repoSnapshot : option string;
  repoTimestamp : option SignedTimestamp
}.

Definition testInitTimestamp (repo : TestRepo) : result TestRepo :=
  match repoSnapshot repo with
  | None => Err (ErrOther "snapshot not loaded")
  | Some sn =>
    Ok {| repoRoot := repoRoot repo; repoSnapshot := repoSnapshot repo;
          repoTimestamp := Some {| Expires := 0; Version := 0; Meta := snapshotMeta sn |} |}
  end.

Definition testSignTimestamp (repo : TestRepo) (expires : Z) (created : list PublicKey)
  : list PublicKey * result (TestRepo * Signed) :=
  match repoTimestamp repo, repoSnapshot repo with
  | Some ts, Some sn =>
    let ts' := {| Expires := expires; Version := Version ts + 1; Meta := snapshotMeta sn |} in
    (created,
     Ok ({| repoRoot := repoRoot repo; repoSnapshot := repoSnapshot repo;
            repoTimestamp := Some ts' |},
         {| SignedPayload := "timestamp-" ++ pretty (Version ts') ++ "-of-" ++ sn;
            Signatures := [] |}))
  | _, _ => (created, Err (ErrOther "nothing to sign"))
  end.

(** The snapshot engine, reduced to reading the current snapshot. *)
Definition testGetOrCreateSnapshot (gun : string) (st : MemStorage)
    (created : list PublicKey)
  : (MemStorage * list PublicKey) * result (Z * string) :=
  let '(st', r) := memGetCurrent st gun CanonicalSnapshotRole in ((st', created), r).

(** The timestamp documents that decode. *)
Definition timestamps : gmap string SignedTimestamp :=
  list_to_map
    [("timestamp-1-of-snapshot-1",
      {| Expires := 1014; Version := 1; Meta := snapshotMeta "snapshot-1" |});
     ("timestamp-old-of-snapshot-1",
      {| Expires := 900; Version := 1; Meta := snapshotMeta "snapshot-1" |})].

#[export] Instance externals : Externals MemStorage (list PublicKey) := {|
  now := clock;
  IsExpired := fun t => t <? clock;
  CheckHashes := testCheckHashes;
  DefaultExpires := fun _ => clock + 14;
  SignedSnapshot := string;
  unmarshalTimestamp := fun bytes =>
    match timestamps !! bytes with
    | Some ts => Ok ts
    | None => Err (ErrOther "invalid character")
    end;
  unmarshalRoot := fun bytes =>
    if String.eqb bytes "root-1" then Ok {| Roles := ∅; Keys := ∅ |}
    else Err (ErrOther "invalid character");
  unmarshalSnapshot := fun bytes => Ok bytes;
  marshalSigned := fun s => Ok (SignedPayload s);
  Repo := TestRepo;
  NewRepo := {| repoRoot := None; repoSnapshot := None; repoTimestamp := None |};
  SetRoot := fun repo r =>
    {| repoRoot := Some r; repoSnapshot := repoSnapshot repo;
       repoTimestamp := repoTimestamp repo |};
  SetSnapshot := fun repo sn =>
    {| repoRoot := repoRoot repo; repoSnapshot := Some sn;
       repoTimestamp := repoTimestamp repo |};
  SetTimestamp := fun repo ts =>
    {| repoRoot := repoRoot repo; repoSnapshot := repoSnapshot repo;
       repoTimestamp := Some ts |};
  InitTimestamp := testInitTimestamp;
  SignTimestamp := testSignTimestamp;
  repoTimestampVersion := fun repo =>
    match repoTimestamp repo with Some ts => Version ts | None => 0 end;
  GetOrCreateSnapshot := testGetOrCreateSnapshot
|}.

(** ** Repositories *)

Definition gun : string := "gun".

Definition storageWith (meta : list (string * string)) : MemStorage :=
  {| tufMeta := list_to_map (List.map (fun '(role, data) => ((gun, role), (990, 1, data))) meta);
     keys := ∅ |}.

Definition worldOf {S K : Type} (st : S) (cs : K) : World S K :=
  {| store := st; crypto := cs; calls := [] |}.

(** The key that won the race for the store. *)
Definition winner : PublicKey := NewPublicKey "ed25519" "key-of-the-first-insert".

(** The stored timestamp is unexpired, and records the hash of another
    snapshot than the current one. *)
Definition changedSnapshot : MemStorage :=
  storageWith [("root", "root-1"); ("snapshot", "snapshot-2");
               ("timestamp", "timestamp-1-of-snapshot-1")].

(** ** A store that has no key and accepts none *)

Inductive ReadOnly : Type := readOnly.

#[export] Instance readOnlyMetaStore : MetaStore ReadOnly := {
  GetCurrent := fun s _ _ => (s, Err ErrNotFound);
  UpdateCurrent := fun s _ _ => (s, Some (ErrOther "read-only store"));
  GetKey := fun s _ _ => (s, Err ErrNoKey);
  SetKey := fun s _ _ _ _ => (s, Some (ErrOther "read-only store"))
}.

(** The stored timestamp does not decode. *)
Definition corruptTimestamp : MemStorage :=
  storageWith [("root", "root-1"); ("snapshot", "snapshot-1");
               ("timestamp", "invalid JSON")].

(** The stored timestamp is unexpired and records the hash of the current
    snapshot. *)
Definition unchangedSnapshot : MemStorage :=
  storageWith [("root", "root-1"); ("snapshot", "snapshot-1");
               ("timestamp", "timestamp-1-of-snapshot-1")].

(** The stored timestamp records the hash of the current snapshot and has
    expired. *)
Definition expiredTimestamp : MemStorage :=
  storageWith [("root", "root-1"); ("snapshot", "snapshot-1");
               ("timestamp", "timestamp-old-of-snapshot-1")].

(** The key that the crypto service creates for the timestamp role. *)
Definition createdKey : PublicKey := NewPublicKey "ed25519" "timestamp-key-of-gun".

End TimestampFixtures.

(** * Properties of the trust validator *)

Module CertsTheory.
Import Certs.

Section Validator.
Context {S : Type} {store : X509Store S} {ext : Externals}.

(** ** Iteration over maps *)

Lemma mapRange_lookup {A : Type} (m : gmap string A) (k : string) (v : A) :
  (k, v) ∈ mapRange m <-> m !! k = Some v.
Proof.
  rewrite (mapRange_perm A m). apply elem_of_map_to_list.
Qed.

Lemma mapRange_empty {A : Type} : mapRange (∅ : gmap string A) = [].
Proof.
  apply Permutation_nil_r. rewrite (mapRange_perm A ∅).
  now rewrite map_to_list_empty.
Qed.

Lemma filter_none {A : Type} (f : A -> bool) (l : list A) :
  (forall x, In x l -> f x = false) -> List.filter f l = [].
Proof.
  induction l as [|a l IH]; intros Hall; simpl; [reflexivity|].
  rewrite (Hall a (or_introl eq_refl)). apply IH.
  intros x Hx. apply Hall. now right.
Qed.

(** A leaf that passes the three tests has the GUN as Common Name, is not
    past its expiry and is not signed with a SHA-1 algorithm. *)
Lemma validLeaf_spec (gun : string) (cert : Certificate) :
  validLeaf gun cert = true <->
  CommonName cert = gun /\ now <= NotAfter cert /\
  SigAlg cert <> SHA1WithRSA /\ SigAlg cert <> DSAWithSHA1 /\
  SigAlg cert <> ECDSAWithSHA1.
Proof.
  unfold validLeaf, usesSHA1.
  rewrite !andb_true_iff, !negb_true_iff, String.eqb_eq, Z.ltb_ge.
  split.
  - intros [[Hcn Hexp] Hsha]. repeat split; try assumption;
      intros Heq; rewrite Heq in Hsha; discriminate.
  - intros (Hcn & Hexp & H1 & H2 & H3). repeat split; try assumption.
    destruct (SigAlg cert); congruence.
Qed.

Lemma validRootLeafCerts_none (root : SignedRoot) (gun : string) :
  (forall leafID cert,
      fst (parseAllCerts root) !! leafID = Some cert -> validLeaf gun cert = false) ->
  exists e, validRootLeafCerts root gun = Err e.
Proof.
  intros Hnone. unfold validRootLeafCerts.
  rewrite filter_none; [simpl; eauto|].
  intros cert Hin. apply in_map_iff in Hin as [[leafID cert'] [Heq Hin]].
  simpl in Heq. subst cert'. apply (Hnone leafID).
  apply mapRange_lookup. now apply list_elem_of_In.
Qed.

Lemma ContainsKeyPrefix_false (m : gmap string string) (key : string) :
  (forall prefixKey, is_Some (m !! prefixKey) -> String.prefix prefixKey key = false) ->
  ContainsKeyPrefix m key = false.
Proof.
  intros Hno. unfold ContainsKeyPrefix. apply bool_decide_eq_false.
  rewrite Exists_exists. intros (k & Hk & Hpre).
  apply elem_of_elements, elem_of_dom in Hk.
  rewrite (Hno k Hk) in Hpre. discriminate.
Qed.

(** ** [certsToRemove] *)

Lemma newCertMap_spec (newCerts : list Certificate) (acc : gset string) (certID : string) :
  certID ∈ foldl addNewCertID acc newCerts <->
  certID ∈ acc \/ exists cert, cert ∈ newCerts /\ FingerprintCert cert = Ok certID.
Proof.
  revert acc. induction newCerts as [|c rest IH]; intros acc; simpl.
  - split; [auto|]. intros [H|(cert & Hin & _)]; [assumption|]. inversion Hin.
  - rewrite IH. unfold addNewCertID. split.
    + intros [Hacc|(cert & Hin & Hfp)].
      * destruct (FingerprintCert c) as [id|e] eqn:Hc; [|auto].
        apply elem_of_union in Hacc as [Hid|Hacc]; [|auto].
        apply elem_of_singleton in Hid. subst id.
        right. exists c. split; [constructor|assumption].
      * right. exists cert. split; [now constructor|assumption].
    + intros [Hacc|(cert & Hin & Hfp)].
      * left. destruct (FingerprintCert c); [|assumption].
        apply elem_of_union. now right.
      * apply elem_of_cons in Hin as [->|Hin].
        -- left. rewrite Hfp. apply elem_of_union. left. now apply elem_of_singleton.
        -- right. eauto.
Qed.

Lemma keepIfAbsent_lookup (ids : gset string) (oldCerts : list Certificate)
    (acc : gmap string Certificate) (certID : string) (cert : Certificate) :
  foldl (keepIfAbsent ids) acc oldCerts !! certID = Some cert ->
  acc !! certID = Some cert \/
  (cert ∈ oldCerts /\ FingerprintCert cert = Ok certID /\ certID ∉ ids).
Proof.
  revert acc. induction oldCerts as [|c rest IH]; intros acc Hlook; simpl in Hlook.
  - now left.
  - apply IH in Hlook as [Hacc|(Hin & Hfp & Hids)].
    + unfold keepIfAbsent in Hacc.
      destruct (FingerprintCert c) as [id|e] eqn:Hc; [|now left].
      destruct (bool_decide (id ∈ ids)) eqn:Hid; [now left|].
      apply bool_decide_eq_false in Hid.
      destruct (decide (id = certID)) as [->|Hne].
      * rewrite lookup_insert_eq in Hacc. inversion Hacc; subst c.
        right. repeat split; [constructor|assumption|assumption].
      * rewrite lookup_insert_ne in Hacc by assumption. now left.
    + right. repeat split; [now constructor|assumption|assumption].
Qed.

(** The certificates to remove are previously trusted certificates whose
    fingerprint is the fingerprint of no accepted certificate. *)
Lemma certsToRemove_lookup (oldCerts newCerts : list Certificate)
    (certID : string) (cert : Certificate) :
  certsToRemove oldCerts newCerts !! certID = Some cert ->
  cert ∈ oldCerts /\ FingerprintCert cert = Ok certID /\
  forall new, new ∈ newCerts -> FingerprintCert new <> Ok certID.
Proof.
  unfold certsToRemove. destruct (length newCerts =? 0)%nat.
  - rewrite lookup_empty. discriminate.
  - intros Hlook. apply keepIfAbsent_lookup in Hlook as [Hempty|(Hin & Hfp & Hids)].
    + rewrite lookup_empty in Hempty. discriminate.
    + repeat split; [assumption|assumption|].
      intros new Hnew Hfpnew. apply Hids. apply newCertMap_spec. right. eauto.
Qed.

Lemma certsToRemove_nil (oldCerts : list Certificate) :
  certsToRemove oldCerts [] = ∅.
Proof. reflexivity. Qed.

(** ** The rotation loops *)

Lemma removeCerts_outcome (certs : list (string * Certificate)) (certStore : S) :
  snd (removeCerts certStore certs) = None \/
  snd (removeCerts certStore certs) = Some (ErrRootRotationFail "failed to rotate root keys").
Proof.
  revert certStore. induction certs as [|[certID cert] rest IH]; intros certStore; simpl.
  - now left.
  - destruct (RemoveCert certStore cert) as [certStore' [e|]]; [now right|apply IH].
Qed.

Lemma removeCerts_fails (certs : list (string * Certificate)) (certStore : S) :
  removalFails certStore certs <->
  snd (removeCerts certStore certs) = Some (ErrRootRotationFail "failed to rotate root keys").
Proof.
  split.
  - intros (before & certID & cert & after & certStore' & -> & Hbefore & Hfail).
    revert certStore Hbefore.
    induction before as [|[id c] before IH]; intros certStore Hbefore; simpl in *.
    + inversion Hbefore; subst certStore'.
      destruct (RemoveCert certStore cert) as [st [e|]]; [reflexivity|].
      now contradiction Hfail.
    + destruct (RemoveCert certStore c) as [st [e|]]; [discriminate|].
      now apply IH.
  - revert certStore. induction certs as [|[certID cert] rest IH]; intros certStore; simpl.
    + discriminate.
    + destruct (RemoveCert certStore cert) as [st [e|]] eqn:Hrm.
      * intros _. exists [], certID, cert, rest, certStore.
        repeat split. rewrite Hrm. discriminate.
      * intros Hrest.
        apply IH in Hrest as (before & id & c & after & st' & -> & Hbefore & Hfail).
        exists ((certID, cert) :: before), id, c, after, st'.
        repeat split; [|assumption]. simpl. now rewrite Hrm.
Qed.

Lemma addCerts_withAddErrors (answer : S -> Certificate -> option error)
    (certs : list Certificate) (certStore : S) :
  addCerts (store := withAddErrors store answer) certStore certs
  = addCerts certStore certs.
Proof.
  revert certStore. induction certs as [|cert rest IH]; intros certStore; simpl;
    [reflexivity|apply IH].
Qed.

Lemma removeCerts_withAddErrors (answer : S -> Certificate -> option error)
    (certs : list (string * Certificate)) (certStore : S) :
  removeCerts (store := withAddErrors store answer) certStore certs
  = removeCerts certStore certs.
Proof.
  revert certStore. induction certs as [|[certID cert] rest IH]; intros certStore; simpl;
    [reflexivity|].
  destruct (RemoveCert certStore cert) as [st [e|]]; [reflexivity|apply IH].
Qed.

Lemma ValidateRoot_withAddErrors (answer : S -> Certificate -> option error)
    (certStore : S) (root : Signed) (gun : string) (trustPinning : TrustPinConfig) :
  ValidateRoot (store := withAddErrors store answer) certStore root gun trustPinning
  = ValidateRoot certStore root gun trustPinning.
Proof.
  unfold ValidateRoot. destruct (RootFromSigned root) as [signedRoot|e]; [|reflexivity].
  destruct (validRootLeafCerts signedRoot gun) as [leaves|e]; [|reflexivity].
  change (decideTrust (store := withAddErrors store answer)
            certStore root signedRoot gun trustPinning leaves)
    with (decideTrust certStore root signedRoot gun trustPinning leaves).
  destruct (decideTrust certStore root signedRoot gun trustPinning leaves)
    as [[certsForCN accepted]|e]; [|reflexivity].
  unfold rotateCerts. now rewrite addCerts_withAddErrors, removeCerts_withAddErrors.
Qed.

(** ** The CA pins *)

Lemma filter_all {A : Type} (l : list A) : List.filter (fun _ => true) l = l.
Proof. induction l as [|a l IH]; simpl; [reflexivity|now rewrite IH]. Qed.

Lemma filter_twice {A : Type} (f g : A -> bool) (l : list A) :
  List.filter f (List.filter g l) = List.filter (fun x => g x && f x) l.
Proof.
  induction l as [|a l IH]; simpl; [reflexivity|].
  destruct (g a); simpl; [destruct (f a)|]; now rewrite IH.
Qed.

Lemma forallb_perm {A : Type} (f : A -> bool) (l l' : list A) :
  l ≡ₚ l' -> forallb f l = forallb f l'.
Proof.
  induction 1 as [|x l l' _ IH|x y l|l l' l'' _ IH1 _ IH2]; simpl.
  - reflexivity.
  - now rewrite IH.
  - destruct (f x), (f y); reflexivity.
  - now rewrite IH1.
Qed.

Lemma pinByCA_retained (signedRoot : SignedRoot) (gun : string)
    (cas : list (string * string)) (leaves retained : list Certificate) :
  pinByCA signedRoot gun cas leaves = Ok retained ->
  retained = List.filter (verifiesAll signedRoot gun cas) leaves.
Proof.
  revert leaves. induction cas as [|[caGunPrefix caFilepath] rest IH]; intros leaves; simpl.
  - intros [= <-]. now rewrite filter_all.
  - destruct (HasPrefix gun caGunPrefix) eqn:Hpre.
    + destruct (LoadCertFromFile caFilepath) as [caCert|e] eqn:Hload; [|discriminate].
      destruct (ValidateCertificate caCert); [discriminate|].
      intros Hrest. apply IH in Hrest. rewrite filter_twice in Hrest.
      rewrite Hrest. apply filter_ext. intros cert.
      unfold verifiesAll. simpl. now rewrite Hpre, Hload.
    + intros Hrest. apply IH in Hrest. rewrite Hrest.
      apply filter_ext. intros cert. unfold verifiesAll. simpl. now rewrite Hpre.
Qed.

Lemma pinByCA_succeeds (signedRoot : SignedRoot) (gun : string)
    (cas : list (string * string)) (leaves : list Certificate) :
  Forall (usablePin gun) cas <->
  exists retained, pinByCA signedRoot gun cas leaves = Ok retained.
Proof.
  revert leaves. induction cas as [|[caGunPrefix caFilepath] rest IH]; intros leaves; simpl.
  - split; [eauto|constructor].
  - split.
    + intros Hall. apply Forall_cons in Hall as [Hpin Hrest]. unfold usablePin in Hpin.
      simpl in Hpin. destruct (HasPrefix gun caGunPrefix).
      * destruct (Hpin eq_refl) as (caCert & -> & ->). now apply IH.
      * now apply IH.
    + intros Hok. constructor.
      * unfold usablePin. simpl. intros Hpre. rewrite Hpre in Hok.
        destruct Hok as [retained Hok].
        destruct (LoadCertFromFile caFilepath) as [caCert|e]; [|discriminate].
        destruct (ValidateCertificate caCert) eqn:Hvalid; [discriminate|].
        exists caCert. now split.
      * destruct (HasPrefix gun caGunPrefix).
        -- destruct Hok as [retained Hok].
           destruct (LoadCertFromFile caFilepath) as [caCert|e]; [|discriminate].
           destruct (ValidateCertificate caCert); [discriminate|].
           eapply IH; eauto.
        -- eapply IH; eauto.
Qed.

Lemma pinByCA_perm (signedRoot : SignedRoot) (gun : string)
    (cas cas' : list (string * string)) (leaves retained : list Certificate) :
  cas' ≡ₚ cas ->
  pinByCA signedRoot gun cas leaves = Ok retained ->
  pinByCA signedRoot gun cas' leaves = Ok retained.
Proof.
  intros Hperm Hok.
  assert (Forall (usablePin gun) cas') as Husable.
  { rewrite Hperm. eapply pinByCA_succeeds; eauto. }
  apply (pinByCA_succeeds signedRoot gun cas' leaves) in Husable as [retained' Hok'].
  rewrite Hok'. f_equal.
  apply pinByCA_retained in Hok, Hok'. subst.
  apply filter_ext. intros cert. unfold verifiesAll. now apply forallb_perm.
Qed.

Lemma pinByCA_app (signedRoot : SignedRoot) (gun : string)
    (before after : list (string * string)) (leaves : list Certificate) :
  pinByCA signedRoot gun (before ++ after) leaves =
  match pinByCA signedRoot gun before leaves with
  | Ok mid => pinByCA signedRoot gun after mid
  | Err e => Err e
  end.
Proof.
  revert leaves. induction before as [|[caGunPrefix caFilepath] rest IH]; intros leaves; simpl.
  - reflexivity.
  - destruct (HasPrefix gun caGunPrefix); [|apply IH].
    destruct (LoadCertFromFile caFilepath) as [caCert|e]; [|reflexivity].
    destruct (ValidateCertificate caCert); [reflexivity|apply IH].
Qed.

(** In the CA branch the bootstrap is the loop over the pins. *)
Lemma bootstrapTrust_CA (signedRoot : SignedRoot) (gun : string)
    (trustPinning : TrustPinConfig) (leaves : list Certificate) :
  Certs trustPinning !! gun = None ->
  ContainsKeyPrefix (CA trustPinning) gun = true ->
  bootstrapTrust signedRoot gun trustPinning leaves
  = pinByCA signedRoot gun (mapRange (CA trustPinning)) leaves.
Proof.
  intros Hcerts Hprefix. unfold bootstrapTrust. rewrite Hcerts, Hprefix.
  destruct (0 <? size (CA trustPinning))%nat eqn:Hsize; [reflexivity|].
  apply Nat.ltb_ge in Hsize.
  assert (CA trustPinning = ∅) as ->.
  { apply map_size_empty_iff. lia. }
  now rewrite mapRange_empty.
Qed.

Lemma verifiesAll_spec (signedRoot : SignedRoot) (gun : string)
    (cas : list (string * string)) (cert : Certificate) :
  verifiesAll signedRoot gun cas cert = true <->
  forall caGunPrefix caFilepath,
    (caGunPrefix, caFilepath) ∈ cas -> HasPrefix gun caGunPrefix = true ->
    exists caCert, LoadCertFromFile caFilepath = Ok caCert /\
                   chainVerifies signedRoot caCert cert = true.
Proof.
  unfold verifiesAll. rewrite forallb_forall. split.
  - intros Hall caGunPrefix caFilepath Hin Hpre.
    apply list_elem_of_In, Hall in Hin. simpl in Hin. rewrite Hpre in Hin.
    destruct (LoadCertFromFile caFilepath) as [caCert|e]; [eauto|discriminate].
  - intros Hall [caGunPrefix caFilepath] Hin. simpl.
    destruct (HasPrefix gun caGunPrefix) eqn:Hpre; [|reflexivity].
    apply list_elem_of_In in Hin.
    now destruct (Hall _ _ Hin Hpre) as (caCert & -> & ->).
Qed.

(** ** The verification step *)

(** C1, as amended. The root is verified with the second argument 0
    against these certificate sets and no other: when the store holds
    certificates for the GUN, first against those certificates and then
    also against the valid leaves of the root itself, and both checks must
    pass; when it holds none, only against the set that the pin, the CA
    pins or TOFU yield. *)
Theorem ValidateRoot_verification_sets
    (certStore : S) (root : Signed) (gun : string) (trustPinning : TrustPinConfig)
    (signedRoot : SignedRoot) (leaves certsForCN : list Certificate)
    (err : option error) :
  RootFromSigned root = Ok signedRoot ->
  validRootLeafCerts signedRoot gun = Ok leaves ->
  GetCertificatesByCN certStore gun = (certsForCN, err) ->
  err = None \/ err = Some ErrNoCertificatesFound ->
  (certsForCN <> [] ->
   ValidateRoot certStore root gun trustPinning =
   match VerifyRoot root 0 (CertsToKeys certsForCN),
         VerifyRoot root 0 (CertsToKeys leaves) with
   | Some _, _ =>
     (certStore,
      Some (ErrValidationFail "failed to validate data with current trusted certificates"))
   | None, Some _ =>
     (certStore, Some (ErrValidationFail "failed to validate integrity of roots"))
   | None, None => rotateCerts certStore certsForCN leaves
   end) /\
  (certsForCN = [] ->
   forall pinned,
     bootstrapTrust signedRoot gun trustPinning leaves = Ok pinned ->
     ValidateRoot certStore root gun trustPinning =
     match VerifyRoot root 0 (CertsToKeys pinned) with
     | Some _ =>
       (certStore, Some (ErrValidationFail "failed to validate integrity of roots"))
     | None => rotateCerts certStore [] pinned
     end).
Proof.
  intros Hroot Hleaves Hstore Herr.
  unfold ValidateRoot, decideTrust. rewrite Hroot, Hleaves, Hstore.
  assert (match err with
          | Some e => negb (isErrNoCertificatesFound e)
          | None => false
          end = false) as -> by (destruct Herr as [-> | ->]; reflexivity).
  split.
  - intros Hne. destruct certsForCN as [|c rest]; [contradiction|]. simpl.
    destruct (VerifyRoot root 0 (CertsToKeys (c :: rest))); [reflexivity|].
    destruct (VerifyRoot root 0 (CertsToKeys leaves)); reflexivity.
  - intros -> pinned Hpinned. simpl. rewrite Hpinned.
    destruct (VerifyRoot root 0 (CertsToKeys pinned)); reflexivity.
Qed.

(** ** Rotation *)

(** C2. Once the root is accepted, (1) the errors that [AddCert] reports
    have no influence on what [ValidateRoot] returns; (2) the removals
    attempted are of previously trusted certificates whose fingerprint no
    accepted certificate has; (3) if one of these removals fails the call
    returns [ErrRootRotationFail], and (4) otherwise it succeeds; (5)
    [ErrRootRotationFail] is not an [ErrValidationFail]. *)
Theorem rotation_adds_best_effort_removals_fatal
    (certStore : S) (root : Signed) (gun : string) (trustPinning : TrustPinConfig)
    (signedRoot : SignedRoot) (leaves certsForCN accepted : list Certificate) :
  RootFromSigned root = Ok signedRoot ->
  validRootLeafCerts signedRoot gun = Ok leaves ->
  decideTrust certStore root signedRoot gun trustPinning leaves
  = Ok (certsForCN, accepted) ->
  let afterAdds := addCerts certStore accepted in
  let toRemove := mapRange (certsToRemove certsForCN accepted) in
  (forall answer : S -> Certificate -> option error,
      ValidateRoot (store := withAddErrors store answer) certStore root gun trustPinning
      = ValidateRoot certStore root gun trustPinning) /\
  (forall certID cert,
      (certID, cert) ∈ toRemove ->
      cert ∈ certsForCN /\ FingerprintCert cert = Ok certID /\
      forall new, new ∈ accepted -> FingerprintCert new <> Ok certID) /\
  (removalFails afterAdds toRemove ->
   snd (ValidateRoot certStore root gun trustPinning)
   = Some (ErrRootRotationFail "failed to rotate root keys")) /\
  (~ removalFails afterAdds toRemove ->
   snd (ValidateRoot certStore root gun trustPinning) = None) /\
  (forall reason reason', ErrRootRotationFail reason <> ErrValidationFail reason').
Proof.
  intros Hroot Hleaves Hdecide afterAdds toRemove.
  assert (ValidateRoot certStore root gun trustPinning
          = removeCerts afterAdds toRemove) as Hrun.
  { unfold ValidateRoot. now rewrite Hroot, Hleaves, Hdecide. }
  split; [|split; [|split; [|split]]].
  - intros answer. apply ValidateRoot_withAddErrors.
  - intros certID cert Hin.
    now apply mapRange_lookup, certsToRemove_lookup in Hin.
  - intros Hfail. rewrite Hrun. now apply removeCerts_fails.
  - intros Hnofail. rewrite Hrun.
    destruct (removeCerts_outcome toRemove afterAdds) as [Hok|Hfail]; [assumption|].
    apply removeCerts_fails in Hfail. contradiction.
  - discriminate.
Qed.

(** With nothing accepted the rotation leaves the store as it is. *)
Lemma rotateCerts_nothing_accepted (oldCerts : list Certificate) (certStore : S) :
  rotateCerts certStore oldCerts [] = (certStore, None).
Proof.
  unfold rotateCerts. rewrite certsToRemove_nil, mapRange_empty. reflexivity.
Qed.

Lemma validRootLeafCerts_nonempty (root : SignedRoot) (gun : string) :
  validRootLeafCerts root gun <> Ok [].
Proof.
  unfold validRootLeafCerts.
  destruct (List.filter _ _) as [|c rest]; simpl length; [discriminate|].
  destruct (Z.of_nat (Datatypes.S (length rest)) <? 1) eqn:Hlen; discriminate.
Qed.

(** The add loop applies [AddCert] to each certificate in turn. *)
Lemma addCerts_foldl (certs : list Certificate) (certStore : S) :
  addCerts certStore certs
  = foldl (fun st cert => fst (AddCert st cert)) certStore certs.
Proof.
  revert certStore. induction certs as [|cert rest IH]; intros certStore; simpl;
    [reflexivity|apply IH].
Qed.

(** No certificate with the fingerprint of an accepted one is to be
    removed. *)
Lemma certsToRemove_spares_accepted (oldCerts accepted : list Certificate)
    (cert : Certificate) (certID : string) :
  cert ∈ accepted -> FingerprintCert cert = Ok certID ->
  certsToRemove oldCerts accepted !! certID = None.
Proof.
  intros Hin Hfp.
  destruct (certsToRemove oldCerts accepted !! certID) as [old|] eqn:Hlook; [|reflexivity].
  apply certsToRemove_lookup in Hlook as (_ & _ & Hnew).
  now contradiction (Hnew cert Hin).
Qed.

Lemma removeCerts_spares (gun : string) (survivor : Certificate) (certID : string)
    (certs : list (string * Certificate)) (certStore : S) :
  removalSparesOthers ->
  FingerprintCert survivor = Ok certID ->
  (forall removedID removed,
      (removedID, removed) ∈ certs -> FingerprintCert removed <> Ok certID) ->
  survivor ∈ fst (GetCertificatesByCN certStore gun) ->
  survivor ∈ fst (GetCertificatesByCN (fst (removeCerts certStore certs)) gun).
Proof.
  intros Hlaw Hfp. revert certStore.
  induction certs as [|[removedID removed] rest IH]; intros certStore Hother Hin; simpl;
    [assumption|].
  assert (survivor ∈ fst (GetCertificatesByCN (fst (RemoveCert certStore removed)) gun))
    as Hstill.
  { apply Hlaw; [assumption|]. rewrite Hfp. intros Heq. symmetry in Heq.
    apply (Hother removedID removed); [constructor|assumption]. }
  destruct (RemoveCert certStore removed) as [certStore' [e|]]; simpl in *; [assumption|].
  apply IH; [|assumption].
  intros id c Hc. apply (Hother id c). now constructor.
Qed.

(** C9, as amended. [certsToRemove] is empty when no certificate is
    accepted, and the rotation then leaves the store as it is; in
    [ValidateRoot] this happens only when the store returned no
    certificate for the GUN. For a non-empty accepted set no certificate
    with the fingerprint of an accepted one is to be removed, so that, in
    a store whose [RemoveCert] leaves the other certificates in place,
    every certificate with an accepted fingerprint that is trusted for a
    GUN once [AddCert] has been applied to the accepted set is still
    trusted for it when [ValidateRoot] returns. *)
Theorem removal_phase_spares_accepted_certificates :
  (forall oldCerts,
      certsToRemove oldCerts [] = ∅ /\
      forall certStore : S, rotateCerts certStore oldCerts [] = (certStore, None)) /\
  (forall (certStore : S) root signedRoot gun trustPinning leaves certsForCN,
      validRootLeafCerts signedRoot gun = Ok leaves ->
      decideTrust certStore root signedRoot gun trustPinning leaves = Ok (certsForCN, []) ->
      certsForCN = []) /\
  (forall oldCerts accepted cert certID,
      cert ∈ accepted -> FingerprintCert cert = Ok certID ->
      certsToRemove oldCerts accepted !! certID = None) /\
  (removalSparesOthers ->
   forall (certStore : S) root signedRoot gun trustPinning leaves certsForCN accepted
          survivor cert certID,
     RootFromSigned root = Ok signedRoot ->
     validRootLeafCerts signedRoot gun = Ok leaves ->
     decideTrust certStore root signedRoot gun trustPinning leaves
     = Ok (certsForCN, accepted) ->
     survivor ∈ fst (GetCertificatesByCN
                       (foldl (fun st added => fst (AddCert st added)) certStore accepted)
                       gun) ->
     FingerprintCert survivor = Ok certID ->
     cert ∈ accepted -> FingerprintCert cert = Ok certID ->
     survivor ∈ fst (GetCertificatesByCN
                       (fst (ValidateRoot certStore root gun trustPinning)) gun)).
Proof.
  split; [|split; [|split]].
  - intros oldCerts. split; [reflexivity|]. intros certStore.
    apply rotateCerts_nothing_accepted.
  - intros certStore root signedRoot gun trustPinning leaves certsForCN Hleaves Hdecide.
    unfold decideTrust in Hdecide.
    destruct (GetCertificatesByCN certStore gun) as [stored err].
    destruct (match err with
              | Some e => negb (isErrNoCertificatesFound e)
              | None => false
              end); [discriminate|].
    destruct stored as [|c rest]; simpl in Hdecide.
    + destruct (bootstrapTrust signedRoot gun trustPinning leaves) as [pinned|e];
        [|discriminate].
      destruct (VerifyRoot root 0 (CertsToKeys pinned)); [discriminate|].
      now injection Hdecide as <- _.
    + destruct (VerifyRoot root 0 (CertsToKeys (c :: rest))); [discriminate|].
      destruct (VerifyRoot root 0 (CertsToKeys leaves)); [discriminate|].
      injection Hdecide as _ Hnil. subst leaves.
      now contradiction (validRootLeafCerts_nonempty signedRoot gun).
  - apply certsToRemove_spares_accepted.
  - intros Hlaw certStore root signedRoot gun trustPinning leaves certsForCN accepted
           survivor cert certID Hroot Hleaves Hdecide Htrusted Hfp Hin Hfp'.
    unfold ValidateRoot. rewrite Hroot, Hleaves, Hdecide. unfold rotateCerts.
    rewrite addCerts_foldl.
    apply (removeCerts_spares gun survivor certID); try assumption.
    intros removedID removed Hremoved Heq.
    apply mapRange_lookup, certsToRemove_lookup in Hremoved as (_ & Hfp'' & Hnew).
    rewrite Hfp'' in Heq. injection Heq as ->.
    now apply (Hnew cert Hin).
Qed.

(** ** Rejections *)

(** C5. A root document that decodes and none of whose leaf certificates
    has the GUN as Common Name, is unexpired and uses no SHA-1 signature
    algorithm, is rejected with [ErrValidationFail]. *)
Theorem ValidateRoot_rejects_root_without_valid_leaf
    (certStore : S) (root : Signed) (gun : string) (trustPinning : TrustPinConfig)
    (signedRoot : SignedRoot) :
  RootFromSigned root = Ok signedRoot ->
  (forall leafID cert,
      fst (parseAllCerts signedRoot) !! leafID = Some cert ->
      ~ (CommonName cert = gun /\ now <= NotAfter cert /\
         SigAlg cert <> SHA1WithRSA /\ SigAlg cert <> DSAWithSHA1 /\
         SigAlg cert <> ECDSAWithSHA1)) ->
  exists reason,
    ValidateRoot certStore root gun trustPinning
    = (certStore, Some (ErrValidationFail reason)).
Proof.
  intros Hroot Hnone. unfold ValidateRoot. rewrite Hroot.
  destruct (validRootLeafCerts_none signedRoot gun) as [e ->]; [|eauto].
  intros leafID cert Hlook. specialize (Hnone leafID cert Hlook).
  destruct (validLeaf gun cert) eqn:Hvalid; [|reflexivity].
  apply validLeaf_spec in Hvalid. contradiction.
Qed.

(** C6. When the store holds no certificate for the GUN, [Certs] has no
    entry for the GUN, no key of [CA] is a prefix of the GUN and [TOFU] is
    off, a root document that decodes is rejected with
    [ErrValidationFail], whatever [VerifyRoot] says of its signatures. *)
Theorem ValidateRoot_rejects_without_trust_source
    (certStore : S) (root : Signed) (gun : string) (trustPinning : TrustPinConfig)
    (signedRoot : SignedRoot) :
  RootFromSigned root = Ok signedRoot ->
  fst (GetCertificatesByCN certStore gun) = [] ->
  Certs trustPinning !! gun = None ->
  (forall prefixKey,
      is_Some (CA trustPinning !! prefixKey) -> String.prefix prefixKey gun = false) ->
  TOFU trustPinning = false ->
  exists reason,
    ValidateRoot certStore root gun trustPinning
    = (certStore, Some (ErrValidationFail reason)).
Proof.
  intros Hroot Hnone Hcerts Hca Htofu. unfold ValidateRoot. rewrite Hroot.
  destruct (validRootLeafCerts signedRoot gun) as [leaves|e]; [|eauto].
  unfold decideTrust.
  destruct (GetCertificatesByCN certStore gun) as [certsForCN err].
  simpl in Hnone. subst certsForCN.
  destruct (match err with
            | Some e => negb (isErrNoCertificatesFound e)
            | None => false
            end); [eauto|].
  simpl. unfold bootstrapTrust.
  rewrite Hcerts, (ContainsKeyPrefix_false _ _ Hca), Htofu. simpl. eauto.
Qed.

(** ** CA pins *)

(** C7, as amended. In the CA branch each matching pin narrows the set
    retained so far to the leaves whose chain verifies against its CA,
    with the intermediates bundled under the leaf's ID; the set retained
    in the end consists of the candidate leaves whose chain verifies
    against the CA of every matching pin, and it is the same for every
    order in which the pins are visited. *)
Theorem CA_pins_retain_leaves_verified_by_every_match
    (signedRoot : SignedRoot) (gun : string) (trustPinning : TrustPinConfig)
    (leaves retained : list Certificate) :
  Certs trustPinning !! gun = None ->
  ContainsKeyPrefix (CA trustPinning) gun = true ->
  bootstrapTrust signedRoot gun trustPinning leaves = Ok retained ->
  (forall before caGunPrefix caFilepath after,
      mapRange (CA trustPinning) = (before ++ (caGunPrefix, caFilepath) :: after)%list ->
      HasPrefix gun caGunPrefix = true ->
      exists mid caCert,
        pinByCA signedRoot gun before leaves = Ok mid /\
        LoadCertFromFile caFilepath = Ok caCert /\
        pinByCA signedRoot gun after
                (List.filter (chainVerifies signedRoot caCert) mid) = Ok retained) /\
  (forall cert,
      cert ∈ retained <->
      cert ∈ leaves /\
      forall caGunPrefix caFilepath,
        CA trustPinning !! caGunPrefix = Some caFilepath ->
        HasPrefix gun caGunPrefix = true ->
        exists caCert, LoadCertFromFile caFilepath = Ok caCert /\
                       chainVerifies signedRoot caCert cert = true) /\
  (forall cas,
      cas ≡ₚ mapRange (CA trustPinning) ->
      pinByCA signedRoot gun cas leaves = Ok retained).
Proof.
  intros Hcerts Hprefix Hrun.
  rewrite bootstrapTrust_CA in Hrun by assumption.
  split; [|split].
  - intros before caGunPrefix caFilepath after Horder Hpre.
    rewrite Horder, pinByCA_app in Hrun.
    destruct (pinByCA signedRoot gun before leaves) as [mid|e]; [|discriminate].
    simpl in Hrun. rewrite Hpre in Hrun.
    destruct (LoadCertFromFile caFilepath) as [caCert|e]; [|discriminate].
    destruct (ValidateCertificate caCert); [discriminate|].
    exists mid, caCert. repeat split. assumption.
  - intros cert. rewrite (pinByCA_retained _ _ _ _ _ Hrun).
    rewrite list_elem_of_In, filter_In, <- list_elem_of_In, verifiesAll_spec.
    split; intros [Hin Hall]; (split; [assumption|]);
      intros caGunPrefix caFilepath Hentry; apply Hall; now apply mapRange_lookup.
  - intros cas Hperm. now apply (pinByCA_perm _ _ _ _ _ _ Hperm).
Qed.

End Validator.

(** ** The theorems at work on a repository *)

Section Runs.
Import CertsFixtures.

(** The store trusts [certA]; the root lists [certB] and carries a
    signature of [certA] only. It verifies against the trusted set, and is
    rejected all the same, for want of a signature of [certB]. *)
Lemma root_signed_by_trusted_cert_only_is_rejected :
  ~ verifiedByTrustedSetOnly (storeWith [certA]) (signedBy "root-B" [certA]) gun tofu.
Proof.
  intros Hclaim.
  apply (Hclaim (rootWith ["pem-B"]) [certB] [certA])
    with (reason := "failed to validate integrity of roots");
    try (by_computation).
  discriminate.
Qed.

Lemma ValidateRoot_verification_sets_witness :
  ValidateRoot (storeWith [certA]) (signedBy "root-B" [certA]) gun tofu
  = (storeWith [certA],
     Some (ErrValidationFail "failed to validate integrity of roots")).
Proof.
  destruct (ValidateRoot_verification_sets
              (storeWith [certA]) (signedBy "root-B" [certA]) gun tofu
              (rootWith ["pem-B"]) [certB] [certA] None) as [Htrusted _].
  - by_computation.
  - by_computation.
  - by_computation.
  - left; reflexivity.
  - rewrite Htrusted; [by_computation|discriminate].
Defined.

Lemma rotation_adds_best_effort_removals_fatal_witness :
  snd (ValidateRoot brokenStore (signedBy "root-B" [certA; certB]) gun tofu)
  = Some (ErrRootRotationFail "failed to rotate root keys").
Proof.
  destruct (rotation_adds_best_effort_removals_fatal
              brokenStore (signedBy "root-B" [certA; certB]) gun tofu
              (rootWith ["pem-B"]) [certB] [certA] [certB])
    as (_ & _ & Hfatal & _).
  - by_computation.
  - by_computation.
  - by_computation.
  - apply Hfatal.
    exists [], "cert-A", certA, [], brokenStore.
    split; [by_computation|].
    split; [reflexivity|]. vm_compute. discriminate.
Defined.

Lemma testStore_trusted (st : TestStore) (cn : string) :
  fst (GetCertificatesByCN st cn)
  = List.filter (fun c => String.eqb (CommonName c) cn) (trusted st).
Proof.
  simpl. unfold testGetCertificatesByCN. now destruct (List.filter _ _).
Qed.

(** The store kept in memory obeys the law of removals. *)
Lemma testStore_removalSparesOthers : removalSparesOthers (S := TestStore).
Proof.
  intros st cert other cn Hin Hfp. rewrite testStore_trusted in *.
  simpl. unfold testRemoveCert.
  destruct (removeError st); [assumption|].
  destruct (existsb (sameCert cert) (trusted st)); [|assumption]. simpl.
  apply list_elem_of_In, filter_In in Hin as [Hin Hcn].
  apply list_elem_of_In, filter_In. split; [|assumption].
  apply filter_In. split; [assumption|].
  unfold sameCert. apply negb_true_iff, String.eqb_neq.
  intros Heq. apply Hfp. simpl. now rewrite Heq.
Qed.

(** The store trusts [certA]; the root lists [certB] only and is signed
    by both: [certA] is removed and [certB], which was added, stays. *)
Lemma removal_phase_spares_accepted_certificates_witness :
  certB ∈ fst (GetCertificatesByCN
                 (fst (ValidateRoot (storeWith [certA])
                         (signedBy "root-B" [certA; certB]) gun tofu)) gun) /\
  fst (ValidateRoot (storeWith [certA]) (signedBy "root-B" [certA; certB]) gun tofu)
  = storeWith [certB].
Proof.
  split; [|by_computation].
  destruct (removal_phase_spares_accepted_certificates (S := TestStore))
    as (_ & _ & _ & Hspared).
  apply (Hspared testStore_removalSparesOthers (storeWith [certA])
                 (signedBy "root-B" [certA; certB]) (rootWith ["pem-B"]) gun tofu
                 [certB] [certA] [certB] certB certB "cert-B").
  - by_computation.
  - by_computation.
  - by_computation.
  - apply list_elem_of_In. vm_compute. auto.
  - reflexivity.
  - constructor.
  - reflexivity.
Defined.

(** The store trusts [certA] and refuses additions; the root lists
    [certB] only and is signed by both. The call succeeds, [certA] is
    removed, and no certificate is trusted for the GUN any more. *)
Lemma failed_additions_leave_no_trusted_certificate :
  ~ neverLosesAllTrust addFailingStore (signedBy "root-B" [certA; certB]) gun tofu.
Proof.
  intros Hclaim. apply Hclaim.
  - vm_compute. discriminate.
  - by_computation.
Qed.

(** A store that refuses additions only: the call succeeds. *)
Example add_failure_does_not_abort :
  ValidateRoot {| trusted := [certA]; addError := Some (ErrOther "disk full");
                  removeError := None |}
               (signedBy "root-B" [certA; certB]) gun tofu
  = ({| trusted := []; addError := Some (ErrOther "disk full"); removeError := None |},
     None).
Proof. by_computation. Qed.

Lemma ValidateRoot_rejects_root_without_valid_leaf_witness :
  exists reason,
    ValidateRoot (storeWith []) (signedBy "root-bad" [certExpired]) gun tofu
    = (storeWith [], Some (ErrValidationFail reason)).
Proof.
  apply (ValidateRoot_rejects_root_without_valid_leaf
           (storeWith []) (signedBy "root-bad" [certExpired]) gun tofu
           (rootWith ["pem-old"; "pem-sha1"])).
  - by_computation.
  - intros leafID cert Hlook.
    apply elem_of_map_to_list in Hlook.
    set (entries := map_to_list _) in Hlook. vm_compute in entries. subst entries.
    rewrite !elem_of_cons, elem_of_nil in Hlook.
    destruct Hlook as [Heq|[Heq|[]]]; inversion Heq; subst leafID cert;
      intros (_ & Hexp & Hsha & _).
    + now apply Hsha.
    + vm_compute in Hexp. now apply Hexp.
Defined.

Lemma ValidateRoot_rejects_without_trust_source_witness :
  exists reason,
    ValidateRoot (storeWith []) (signedBy "root-A" [certA]) gun otherCA
    = (storeWith [], Some (ErrValidationFail reason)).
Proof.
  apply (ValidateRoot_rejects_without_trust_source
           (storeWith []) (signedBy "root-A" [certA]) gun otherCA (rootWith ["pem-A"])).
  - by_computation.
  - reflexivity.
  - reflexivity.
  - intros prefixKey [path Hpath]. unfold otherCA in Hpath. simpl in Hpath.
    apply lookup_singleton_Some in Hpath as [<- _]. reflexivity.
  - reflexivity.
Defined.

(** Both pins of [twoCAs] match the GUN; [ca1] issued [certA] only and
    [ca2] issued [certB] only. No leaf is retained, while the pin visited
    last retains one on its own. *)
Lemma last_matching_CA_does_not_decide :
  ~ lastMatchWins (rootWith ["pem-A"; "pem-B"]) gun twoCAs [certA; certB].
Proof.
  intros Hclaim.
  destruct (Hclaim []) as (caGunPrefix & caFilepath & caCert & Hlast & Hload & Hretained).
  - by_computation.
  - vm_compute in Hlast. inversion Hlast; subst caGunPrefix caFilepath.
    vm_compute in Hload. inversion Hload; subst caCert.
    vm_compute in Hretained. discriminate.
Qed.

Lemma CA_pins_retain_leaves_verified_by_every_match_witness :
  bootstrapTrust (rootWith ["pem-A"; "pem-B"]) gun twoCAs [certA; certB] = Ok [] /\
  pinByCA (rootWith ["pem-A"; "pem-B"]) gun
          [("example.com/", "ca-1.crt"); ("example.com/repo", "ca-2.crt")]
          [certA; certB] = Ok [].
Proof.
  assert (bootstrapTrust (rootWith ["pem-A"; "pem-B"]) gun twoCAs [certA; certB] = Ok [])
    as Hrun by (by_computation).
  split; [assumption|].
  destruct (CA_pins_retain_leaves_verified_by_every_match
              (rootWith ["pem-A"; "pem-B"]) gun twoCAs [certA; certB] [])
    as (_ & _ & Horder).
  - reflexivity.
  - by_computation.
  - assumption.
  - apply Horder.
    replace (mapRange (CA twoCAs))
      with [("example.com/repo", "ca-2.crt"); ("example.com/", "ca-1.crt")]
      by (by_computation).
    apply perm_swap.
Defined.

End Runs.

End CertsTheory.

(** * Properties of the key registry and of the timestamp engine *)

Module TimestampTheory.
Import Timestamp.

Section Engine.
Context {S K : Type} {metaStore : MetaStore S} {cryptoService : CryptoService K}
        {ext : Externals S K}.

(** ** The key registry *)

Lemma GetOrCreateKey_existing (gun role algorithmHint : string) (w : World S K)
    (s1 : S) (algorithm public : string) :
  GetKey (store w) gun role = (s1, Ok (algorithm, public)) ->
  GetOrCreateKey gun role algorithmHint w
  = (Ok (NewPublicKey algorithm public), after w s1 (crypto w) [CallGetKey gun role]).
Proof.
  intros Hget. unfold GetOrCreateKey, bind, storeGetKey. now rewrite Hget.
Qed.

Lemma GetOrCreateKey_lost_race (gun role algorithmHint : string) (w : World S K)
    (s1 s2 s3 : S) (k1 : K) (key : PublicKey) (algorithm public : string) :
  GetKey (store w) gun role = (s1, Err ErrNoKey) ->
  Create (crypto w) role gun algorithmHint = (k1, Ok key) ->
  SetKey s1 gun role (Algorithm key) (Public key) = (s2, Some ErrKeyExists) ->
  GetKey s2 gun role = (s3, Ok (algorithm, public)) ->
  GetOrCreateKey gun role algorithmHint w
  = (Ok (NewPublicKey algorithm public),
     after w s3 k1 [CallGetKey gun role; CallCreate role gun algorithmHint;
                    CallSetKey gun role (Algorithm key) (Public key);
                    CallGetKey gun role]).
Proof.
  intros Hget Hcreate Hset Hagain.
  unfold GetOrCreateKey, bind, storeGetKey, cryptoCreate, storeSetKey, after.
  rewrite Hget. simpl. rewrite Hcreate. simpl. rewrite Hset. simpl. rewrite Hagain.
  simpl. now rewrite <- !app_assoc.
Qed.

(** The registry of the timestamp package is the registry of the spec at
    the timestamp role. *)
Lemma GetOrCreateTimestampKey_registry (gun createAlgorithm : string) :
  GetOrCreateTimestampKey gun createAlgorithm
  = GetOrCreateKey gun CanonicalTimestampRole createAlgorithm.
Proof. reflexivity. Qed.

(** C3. For both roles: a key that [GetKey] finds is returned after this
    one call; and when [GetKey] finds no key, [Create] yields a key,
    [SetKey] answers that a key exists and the second [GetKey] finds one,
    the key found is returned and no error. *)
Theorem registry_returns_existing_key_and_converges
    (gun createAlgorithm : string) (w : World S K) :
  (forall s1 algorithm public,
      GetKey (store w) gun CanonicalTimestampRole = (s1, Ok (algorithm, public)) ->
      GetOrCreateTimestampKey gun createAlgorithm w
      = (Ok (NewPublicKey algorithm public),
         after w s1 (crypto w) [CallGetKey gun CanonicalTimestampRole])) /\
  (forall s1 s2 s3 k1 key algorithm public,
      GetKey (store w) gun CanonicalTimestampRole = (s1, Err ErrNoKey) ->
      Create (crypto w) "timestamp" gun createAlgorithm = (k1, Ok key) ->
      SetKey s1 gun CanonicalTimestampRole (Algorithm key) (Public key)
      = (s2, Some ErrKeyExists) ->
      GetKey s2 gun CanonicalTimestampRole = (s3, Ok (algorithm, public)) ->
      GetOrCreateTimestampKey gun createAlgorithm w
      = (Ok (NewPublicKey algorithm public),
         after w s3 k1
               [CallGetKey gun CanonicalTimestampRole;
                CallCreate "timestamp" gun createAlgorithm;
                CallSetKey gun CanonicalTimestampRole (Algorithm key) (Public key);
                CallGetKey gun CanonicalTimestampRole])) /\
  (forall s1 algorithm public,
      GetKey (store w) gun CanonicalSnapshotRole = (s1, Ok (algorithm, public)) ->
      GetOrCreateSnapshotKey gun createAlgorithm w
      = (Ok (NewPublicKey algorithm public),
         after w s1 (crypto w) [CallGetKey gun CanonicalSnapshotRole])) /\
  (forall s1 s2 s3 k1 key algorithm public,
      GetKey (store w) gun CanonicalSnapshotRole = (s1, Err ErrNoKey) ->
      Create (crypto w) "snapshot" gun createAlgorithm = (k1, Ok key) ->
      SetKey s1 gun CanonicalSnapshotRole (Algorithm key) (Public key)
      = (s2, Some ErrKeyExists) ->
      GetKey s2 gun CanonicalSnapshotRole = (s3, Ok (algorithm, public)) ->
      GetOrCreateSnapshotKey gun createAlgorithm w
      = (Ok (NewPublicKey algorithm public),
         after w s3 k1
               [CallGetKey gun CanonicalSnapshotRole;
                CallCreate "snapshot" gun createAlgorithm;
                CallSetKey gun CanonicalSnapshotRole (Algorithm key) (Public key);
                CallGetKey gun CanonicalSnapshotRole])).
Proof.
  rewrite GetOrCreateTimestampKey_registry. unfold GetOrCreateSnapshotKey.
  split; [|split; [|split]]; intros.
  - now apply GetOrCreateKey_existing.
  - now apply GetOrCreateKey_lost_race with (s1 := s1) (s2 := s2).
  - now apply GetOrCreateKey_existing.
  - now apply GetOrCreateKey_lost_race with (s1 := s1) (s2 := s2).
Qed.

(** C10. If the first [GetKey] of [GetOrCreateTimestampKey] fails with an
    error other than [ErrNoKey], this error is the result, [GetKey] is the
    only call made, and the store is in the state in which this call left
    it. *)
Theorem GetOrCreateTimestampKey_propagates_store_failure
    (gun createAlgorithm : string) (w : World S K) (s1 : S) (err : error) :
  GetKey (store w) gun CanonicalTimestampRole = (s1, Err err) ->
  err <> ErrNoKey ->
  GetOrCreateTimestampKey gun createAlgorithm w
  = (Err err, after w s1 (crypto w) [CallGetKey gun CanonicalTimestampRole]).
Proof.
  intros Hget Hother. unfold GetOrCreateTimestampKey, bind, storeGetKey.
  rewrite Hget. destruct err; try reflexivity. contradiction.
Qed.

(** ** The timestamp engine *)

Lemma NewTimestampUpdate_extends (prev : option SignedTimestamp) (repo : Repo)
    (w : World S K) :
  extends w (snd (NewTimestampUpdate prev repo w)).
Proof.
  unfold NewTimestampUpdate, bind, repoSignTimestamp, ret.
  destruct (match prev with
            | Some prev0 => Ok (SetTimestamp repo prev0)
            | None => InitTimestamp repo
            end) as [repo'|e]; [|exists []; simpl; now rewrite app_nil_r].
  destruct (SignTimestamp repo' (DefaultExpires CanonicalTimestampRole) (crypto w))
    as [k [[repo'' sgnd]|e]]; [destruct (marshalSigned sgnd)|]; simpl; eexists; reflexivity.
Qed.

(** [createTimestamp] begins by reading the root from the store. *)
Lemma createTimestamp_reads_root (gun : string) (prev : option SignedTimestamp)
    (snapshot : string) (w : World S K) :
  exists made,
    calls (snd (createTimestamp gun prev snapshot w))
    = (calls w ++ CallGetCurrent gun CanonicalRootRole :: made)%list.
Proof.
  unfold createTimestamp, bind, storeGetCurrent, ret.
  destruct (GetCurrent (store w) gun CanonicalRootRole) as [s [[modified root]|e]];
    [|exists []; reflexivity].
  destruct (unmarshalRoot root) as [r|e]; [|exists []; reflexivity].
  destruct (unmarshalSnapshot snapshot) as [sn|e]; [|exists []; reflexivity].
  match goal with
  | |- context [NewTimestampUpdate ?p ?r ?w'] =>
    destruct (NewTimestampUpdate_extends p r w') as [made Hmade]; rewrite Hmade
  end.
  exists made. simpl. now rewrite <- app_assoc.
Qed.

Lemma regenerate_extends (gun : string) (prev : SignedTimestamp) (snapshot : string)
    (w2 : World S K) :
  exists made,
    calls (snd (regenerate gun prev snapshot w2))
    = (calls w2 ++ CallGetCurrent gun CanonicalRootRole :: made)%list.
Proof.
  unfold regenerate.
  destruct (createTimestamp_reads_root gun (Some prev) snapshot w2) as [made Hmade].
  destruct (createTimestamp gun (Some prev) snapshot w2) as [[update|e] w3];
    simpl in Hmade; [|eauto].
  destruct (UpdateCurrent (store w3) gun update) as [s4 updated]. simpl.
  rewrite Hmade, <- app_assoc. simpl. eauto.
Qed.

Lemma GetOrCreateTimestamp_decision (gun : string) (w : World S K)
    (s1 s2 : S) (k2 : K) (lastModified snapshotModified : Z)
    (timestampJSON snapshot : string) (prev : SignedTimestamp) :
  GetCurrent (store w) gun CanonicalTimestampRole = (s1, Ok (lastModified, timestampJSON)) ->
  unmarshalTimestamp timestampJSON = Ok prev ->
  GetOrCreateSnapshot gun s1 (crypto w) = ((s2, k2), Ok (snapshotModified, snapshot)) ->
  let w2 := after w s2 k2 [CallGetCurrent gun CanonicalTimestampRole;
                           CallGetOrCreateSnapshot gun] in
  GetOrCreateTimestamp gun w =
  if negb (timestampExpired prev) && negb (snapshotExpired prev snapshot)
  then (Ok (lastModified, timestampJSON), w2)
  else regenerate gun prev snapshot w2.
Proof.
  intros Hget Hparse Hsnapshot w2.
  unfold GetOrCreateTimestamp, bind, storeGetCurrent, snapshotGetOrCreateSnapshot.
  rewrite Hget, Hparse. simpl. rewrite Hsnapshot.
  replace {| store := s2; crypto := k2;
             calls := ((calls w ++ [CallGetCurrent gun CanonicalTimestampRole])
                       ++ [CallGetOrCreateSnapshot gun])%list |}
    with w2 by (unfold w2, after; now rewrite <- app_assoc).
  destruct (negb (timestampExpired prev) && negb (snapshotExpired prev snapshot));
    [reflexivity|].
  unfold regenerate, storeUpdateCurrent, ret, after.
  destruct (createTimestamp gun (Some prev) snapshot w2) as [[update|e] w3]; [|reflexivity].
  destruct (UpdateCurrent (store w3) gun update) as [s4 [e|]]; reflexivity.
Qed.

(** C4. Let the store hold a timestamp that decodes and let the snapshot
    engine yield the current snapshot. The call returns the stored bytes
    and modification time, without a further call to any collaborator, if
    and only if the timestamp has not expired and the hashes that its
    [Meta] records under "snapshot" (none, if it has no such entry) pass
    [CheckHashes] on the snapshot bytes. Otherwise a timestamp is created
    from the previous one and the snapshot and written to the store, and
    its bytes are returned. *)
Theorem GetOrCreateTimestamp_returns_stored_iff_fresh
    (gun : string) (w : World S K)
    (s1 s2 : S) (k2 : K) (lastModified snapshotModified : Z)
    (timestampJSON snapshot : string) (prev : SignedTimestamp) :
  GetCurrent (store w) gun CanonicalTimestampRole = (s1, Ok (lastModified, timestampJSON)) ->
  unmarshalTimestamp timestampJSON = Ok prev ->
  GetOrCreateSnapshot gun s1 (crypto w) = ((s2, k2), Ok (snapshotModified, snapshot)) ->
  let w2 := after w s2 k2 [CallGetCurrent gun CanonicalTimestampRole;
                           CallGetOrCreateSnapshot gun] in
  let recorded := match Meta prev !! "snapshot" with
                  | Some meta => Hashes meta
                  | None => ∅
                  end in
  let fresh := IsExpired (Expires prev) = false /\
               CheckHashes snapshot recorded = None in
  (GetOrCreateTimestamp gun w = (Ok (lastModified, timestampJSON), w2) <-> fresh) /\
  (~ fresh ->
   forall update w3 s4,
     createTimestamp gun (Some prev) snapshot w2 = (Ok update, w3) ->
     UpdateCurrent (store w3) gun update = (s4, None) ->
     GetOrCreateTimestamp gun w
     = (Ok (now, Data update), after w3 s4 (crypto w3) [CallUpdateCurrent gun update])).
Proof.
  intros Hget Hparse Hsnapshot w2 recorded fresh.
  pose proof (GetOrCreateTimestamp_decision gun w _ _ _ _ _ _ _ _ Hget Hparse Hsnapshot)
    as Hrun. fold w2 in Hrun.
  assert (negb (timestampExpired prev) && negb (snapshotExpired prev snapshot) = true
          <-> fresh) as Hfresh.
  { unfold fresh, timestampExpired, snapshotExpired.
    change (snapshotHashes prev) with recorded.
    rewrite andb_true_iff, !negb_true_iff.
    destruct (CheckHashes snapshot recorded); intuition congruence. }
  destruct (negb (timestampExpired prev) && negb (snapshotExpired prev snapshot)).
  - split; [split; [intros _; now apply Hfresh|intros _; exact Hrun]|].
    intros Hstale. exfalso. apply Hstale. now apply Hfresh.
  - split.
    + split; [|intros Hf; apply Hfresh in Hf; discriminate].
      intros Hstored. rewrite Hrun in Hstored.
      destruct (regenerate_extends gun prev snapshot w2) as [made Hmade].
      rewrite Hstored in Hmade. simpl in Hmade.
      apply (f_equal (@length Call)) in Hmade.
      rewrite !length_app in Hmade. simpl in Hmade. lia.
    + intros _ update w3 s4 Hcreate Hupdate. rewrite Hrun.
      unfold regenerate. now rewrite Hcreate, Hupdate.
Qed.

(** When the store has no timestamp, or fails to read it, the failure is
    the result, and nothing else is called. *)
Lemma GetOrCreateTimestamp_propagates_lookup_failure (gun : string) (w : World S K)
    (s1 : S) (err : error) :
  GetCurrent (store w) gun CanonicalTimestampRole = (s1, Err err) ->
  GetOrCreateTimestamp gun w
  = (Err err, after w s1 (crypto w) [CallGetCurrent gun CanonicalTimestampRole]).
Proof.
  intros Hget. unfold GetOrCreateTimestamp, bind, storeGetCurrent. now rewrite Hget.
Qed.

End Engine.

(** ** The theorems at work on a repository *)

Section Runs.
Import TimestampFixtures.

(** [TestGetSnapshotKeyExistsOnSet]: the insert fails because of a
    duplicate key, and the key of the first insert is returned. *)
Lemma registry_returns_existing_key_and_converges_witness :
  fst (GetOrCreateSnapshotKey gun "ed25519"
         (worldOf {| getCalled := false; k := winner |} ([] : list PublicKey)))
  = Ok winner /\
  fst (GetOrCreateTimestampKey gun "ed25519"
         (worldOf {| getCalled := true; k := winner |} ([] : list PublicKey)))
  = Ok winner.
Proof.
  destruct (registry_returns_existing_key_and_converges gun "ed25519"
              (worldOf {| getCalled := false; k := winner |} ([] : list PublicKey)))
    as (_ & _ & _ & Hrace).
  destruct (registry_returns_existing_key_and_converges gun "ed25519"
              (worldOf {| getCalled := true; k := winner |} ([] : list PublicKey)))
    as (Hexisting & _).
  split.
  - rewrite (Hrace {| getCalled := true; k := winner |}
                   {| getCalled := true; k := winner |}
                   {| getCalled := true; k := winner |}
                   [NewPublicKey "ed25519" "snapshot-key-of-gun"]
                   (NewPublicKey "ed25519" "snapshot-key-of-gun")
                   "ed25519" "key-of-the-first-insert");
      reflexivity.
  - rewrite (Hexisting {| getCalled := true; k := winner |}
                       "ed25519" "key-of-the-first-insert"); reflexivity.
Defined.

Lemma GetOrCreateTimestampKey_propagates_store_failure_witness :
  GetOrCreateTimestampKey gun "ecdsa" (worldOf unreachable ([] : list PublicKey))
  = (Err (ErrOther "connection refused"),
     {| store := unreachable; crypto := [];
        calls := [CallGetKey gun CanonicalTimestampRole] |}).
Proof.
  apply (GetOrCreateTimestampKey_propagates_store_failure
           gun "ecdsa" (worldOf unreachable ([] : list PublicKey)) unreachable
           (ErrOther "connection refused")).
  - reflexivity.
  - discriminate.
Defined.

Lemma GetOrCreateTimestamp_returns_stored_iff_fresh_witness :
  fst (GetOrCreateTimestamp gun (worldOf unchangedSnapshot []))
  = Ok (990, "timestamp-1-of-snapshot-1") /\
  fst (GetOrCreateTimestamp gun (worldOf changedSnapshot []))
  = Ok (1000, "timestamp-2-of-snapshot-2") /\
  fst (GetOrCreateTimestamp gun (worldOf expiredTimestamp []))
  = Ok (1000, "timestamp-2-of-snapshot-1").
Proof.
  split; [|split].
  - destruct (GetOrCreateTimestamp_returns_stored_iff_fresh
                gun (worldOf unchangedSnapshot []) unchangedSnapshot unchangedSnapshot []
                990 990 "timestamp-1-of-snapshot-1" "snapshot-1"
                {| Expires := 1014; Version := 1; Meta := snapshotMeta "snapshot-1" |})
      as [Hfresh _]; [by_computation|by_computation|by_computation|].
    rewrite (proj2 Hfresh); [reflexivity|]. split; by_computation.
  - destruct (GetOrCreateTimestamp_returns_stored_iff_fresh
                gun (worldOf changedSnapshot []) changedSnapshot changedSnapshot []
                990 990 "timestamp-1-of-snapshot-1" "snapshot-2"
                {| Expires := 1014; Version := 1; Meta := snapshotMeta "snapshot-1" |})
      as [_ Hstale]; [by_computation|by_computation|by_computation|].
    assert (Hstale' := Hstale ltac:(intros [_ Hhash]; vm_compute in Hhash; discriminate)).
    clear Hstale.
    pose (update := {| Role := CanonicalTimestampRole; UpdateVersion := 2;
                       Data := "timestamp-2-of-snapshot-2" |}).
    rewrite (Hstale' update
               {| store := changedSnapshot; crypto := [];
                  calls := [CallGetCurrent gun CanonicalTimestampRole;
                            CallGetOrCreateSnapshot gun;
                            CallGetCurrent gun CanonicalRootRole;
                            CallSignTimestamp 1014] |}
               (fst (UpdateCurrent changedSnapshot gun update)));
      by_computation.
  - destruct (GetOrCreateTimestamp_returns_stored_iff_fresh
                gun (worldOf expiredTimestamp []) expiredTimestamp expiredTimestamp []
                990 990 "timestamp-old-of-snapshot-1" "snapshot-1"
                {| Expires := 900; Version := 1; Meta := snapshotMeta "snapshot-1" |})
      as [_ Hstale]; [by_computation|by_computation|by_computation|].
    assert (Hstale' := Hstale ltac:(intros [Hexp _]; vm_compute in Hexp; discriminate)).
    clear Hstale.
    pose (update := {| Role := CanonicalTimestampRole; UpdateVersion := 2;
                       Data := "timestamp-2-of-snapshot-1" |}).
    rewrite (Hstale' update
               {| store := expiredTimestamp; crypto := [];
                  calls := [CallGetCurrent gun CanonicalTimestampRole;
                            CallGetOrCreateSnapshot gun;
                            CallGetCurrent gun CanonicalRootRole;
                            CallSignTimestamp 1014] |}
               (fst (UpdateCurrent expiredTimestamp gun update)));
      by_computation.
Defined.

(** C8. The store holds the root and the snapshot of the repository and
    no timestamp yet: [GetOrCreateTimestamp] fails with the store's
    [ErrNotFound] after its first call and writes nothing, although
    [NewTimestampUpdate] without a previous timestamp would produce the
    first version. *)
Theorem GetOrCreateTimestamp_without_timestamp_fails :
  let st := storageWith [("root", "root-1"); ("snapshot", "snapshot-1")] in
  GetOrCreateTimestamp gun (worldOf st [])
  = (Err ErrNotFound,
     {| store := st; crypto := []; calls := [CallGetCurrent gun CanonicalTimestampRole] |}) /\
  fst (NewTimestampUpdate None (SetSnapshot NewRepo "snapshot-1") (worldOf st []))
  = Ok {| Role := CanonicalTimestampRole; UpdateVersion := 1;
          Data := "timestamp-1-of-snapshot-1" |}.
Proof.
  split.
  - apply (GetOrCreateTimestamp_propagates_lookup_failure
             gun (worldOf (storageWith [("root", "root-1"); ("snapshot", "snapshot-1")]) [])).
    by_computation.
  - by_computation.
Qed.

End Runs.

End TimestampTheory.

(** * Further properties of the trust validator *)

Module CertsExtras.
Import Certs CertsTheory.

Section Validator.
Context {S : Type} {store : X509Store S} {ext : Externals}.

(** ** [parseAllCerts] *)

Lemma parseKey_paired (signedRoot : SignedRoot) (rootRoles : RootRole)
    (acc : gmap string Certificate * gmap string (list Certificate)) (keyID : string) :
  Roles signedRoot !! "root" = Some rootRoles ->
  keyID ∈ KeyIDs rootRoles ->
  paired signedRoot acc -> paired signedRoot (parseKey signedRoot acc keyID).
Proof.
  intros Hrole Hin Hacc. unfold parseKey.
  destruct (Keys signedRoot !! keyID) as [key|] eqn:Hkey; [|assumption].
  destruct (LoadCertBundleFromPEM (Public key)) as [decodedCerts|e] eqn:Hload; [|assumption].
  destruct (GetLeafCerts decodedCerts) as [|leafCert [|other rest]] eqn:Hleaf;
    [assumption| |assumption].
  destruct (FingerprintCert leafCert) as [leafID|e] eqn:Hfp; [|assumption].
  intros id. simpl. destruct (decide (leafID = id)) as [->|Hne].
  - rewrite !lookup_insert_eq.
    exists rootRoles, keyID, key, decodedCerts. repeat split; assumption.
  - rewrite !lookup_insert_ne by assumption. apply Hacc.
Qed.

Lemma foldl_parseKey_paired (signedRoot : SignedRoot) (rootRoles : RootRole)
    (keyIDs : list string)
    (acc : gmap string Certificate * gmap string (list Certificate)) :
  Roles signedRoot !! "root" = Some rootRoles ->
  (forall keyID, keyID ∈ keyIDs -> keyID ∈ KeyIDs rootRoles) ->
  paired signedRoot acc -> paired signedRoot (foldl (parseKey signedRoot) acc keyIDs).
Proof.
  intros Hrole. revert acc.
  induction keyIDs as [|keyID rest IH]; intros acc Hsub Hacc; simpl; [assumption|].
  apply IH.
  - intros k Hk. apply Hsub. now constructor.
  - eapply parseKey_paired; eauto. apply Hsub. constructor.
Qed.

Lemma parseAllCerts_paired (signedRoot : SignedRoot) :
  paired signedRoot (parseAllCerts signedRoot).
Proof.
  unfold parseAllCerts.
  destruct (Roles signedRoot !! "root") as [rootRoles|] eqn:Hrole.
  - eapply foldl_parseKey_paired; eauto.
    intros leafID. simpl. now rewrite !lookup_empty.
  - intros leafID. simpl. now rewrite !lookup_empty.
Qed.

(** X1. The two maps of [parseAllCerts] have the same IDs. The leaf under
    an ID has this ID as fingerprint and is the only leaf of the bundle of
    a key listed in the root role, and the intermediates under the ID are
    those of the same bundle. Without a root role both maps are empty. *)
Theorem parseAllCerts_bundles (signedRoot : SignedRoot) :
  (forall leafID cert,
      fst (parseAllCerts signedRoot) !! leafID = Some cert ->
      exists ints,
        snd (parseAllCerts signedRoot) !! leafID = Some ints /\
        fromRootBundle signedRoot leafID cert ints) /\
  (forall leafID ints,
      snd (parseAllCerts signedRoot) !! leafID = Some ints ->
      exists cert,
        fst (parseAllCerts signedRoot) !! leafID = Some cert /\
        fromRootBundle signedRoot leafID cert ints) /\
  (Roles signedRoot !! "root" = None -> parseAllCerts signedRoot = (∅, ∅)).
Proof.
  split; [|split].
  - intros leafID cert Hleaf. pose proof (parseAllCerts_paired signedRoot leafID) as Hp.
    rewrite Hleaf in Hp.
    destruct (snd (parseAllCerts signedRoot) !! leafID) as [ints|]; [eauto|contradiction].
  - intros leafID ints Hint. pose proof (parseAllCerts_paired signedRoot leafID) as Hp.
    rewrite Hint in Hp.
    destruct (fst (parseAllCerts signedRoot) !! leafID) as [cert|]; [eauto|contradiction].
  - intros Hnone. unfold parseAllCerts. now rewrite Hnone.
Qed.

(** ** [validRootLeafCerts] *)

(** X2. When [validRootLeafCerts] succeeds its result is not empty and
    holds exactly the parsed leaves that have the GUN as Common Name, are
    not past their expiry and use no SHA-1 algorithm; and it succeeds as
    soon as one parsed leaf is of this kind. *)
Theorem validRootLeafCerts_exact (root : SignedRoot) (gun : string) :
  (forall certs,
      validRootLeafCerts root gun = Ok certs ->
      certs <> [] /\
      forall cert,
        cert ∈ certs <->
        (exists leafID, fst (parseAllCerts root) !! leafID = Some cert) /\
        CommonName cert = gun /\ now <= NotAfter cert /\
        SigAlg cert <> SHA1WithRSA /\ SigAlg cert <> DSAWithSHA1 /\
        SigAlg cert <> ECDSAWithSHA1) /\
  (forall leafID cert,
      fst (parseAllCerts root) !! leafID = Some cert ->
      CommonName cert = gun -> now <= NotAfter cert ->
      SigAlg cert <> SHA1WithRSA -> SigAlg cert <> DSAWithSHA1 ->
      SigAlg cert <> ECDSAWithSHA1 ->
      exists certs, validRootLeafCerts root gun = Ok certs).
Proof.
  assert (forall cert,
             In cert (List.filter (validLeaf gun)
                        (List.map snd (mapRange (fst (parseAllCerts root))))) <->
             (exists leafID, fst (parseAllCerts root) !! leafID = Some cert) /\
             validLeaf gun cert = true) as Hmem.
  { intros cert. rewrite filter_In, in_map_iff. split.
    - intros [([leafID c] & Heq & Hin) Hvalid]. simpl in Heq. subst c.
      split; [|assumption]. exists leafID.
      now apply mapRange_lookup, list_elem_of_In.
    - intros [[leafID Hlook] Hvalid]. split; [|assumption].
      exists (leafID, cert). split; [reflexivity|].
      now apply list_elem_of_In, mapRange_lookup. }
  unfold validRootLeafCerts. split.
  - intros certs Hok.
    destruct (Z.of_nat _ <? 1) eqn:Hlen; [discriminate|].
    injection Hok as <-. apply Z.ltb_ge in Hlen. split.
    + intros Hnil. rewrite Hnil in Hlen. simpl in Hlen. lia.
    + intros cert. now rewrite list_elem_of_In, Hmem, validLeaf_spec.
  - intros leafID cert Hlook Hcn Hexp H1 H2 H3.
    assert (In cert (List.filter (validLeaf gun)
                       (List.map snd (mapRange (fst (parseAllCerts root)))))) as Hin.
    { apply Hmem. split; [eauto|]. now apply validLeaf_spec. }
    destruct (List.filter _ _) as [|c rest]; [contradiction|].
    simpl length. rewrite Nat2Z.inj_succ.
    destruct (Z.succ _ <? 1) eqn:Hlen; [|eauto].
    apply Z.ltb_lt in Hlen. lia.
Qed.

(** ** [certsToRemove] *)

Lemma keepIfAbsent_keeps (ids : gset string) (oldCerts : list Certificate)
    (acc : gmap string Certificate) (certID : string) :
  is_Some (acc !! certID) ->
  is_Some (foldl (keepIfAbsent ids) acc oldCerts !! certID).
Proof.
  revert acc. induction oldCerts as [|c rest IH]; intros acc Hsome; simpl; [assumption|].
  apply IH. unfold keepIfAbsent.
  destruct (FingerprintCert c) as [id|e]; [|assumption].
  destruct (bool_decide (id ∈ ids)); [assumption|].
  destruct (decide (id = certID)) as [->|Hne].
  - rewrite lookup_insert_eq. eauto.
  - now rewrite lookup_insert_ne.
Qed.

Lemma keepIfAbsent_adds (ids : gset string) (oldCerts : list Certificate)
    (acc : gmap string Certificate) (certID : string) (cert : Certificate) :
  cert ∈ oldCerts -> FingerprintCert cert = Ok certID -> certID ∉ ids ->
  is_Some (foldl (keepIfAbsent ids) acc oldCerts !! certID).
Proof.
  revert acc. induction oldCerts as [|c rest IH]; intros acc Hin Hfp Hids; simpl.
  - inversion Hin.
  - apply elem_of_cons in Hin as [<-|Hin]; [|now apply IH].
    apply keepIfAbsent_keeps. unfold keepIfAbsent. rewrite Hfp.
    rewrite bool_decide_eq_false_2 by assumption.
    rewrite lookup_insert_eq. eauto.
Qed.

(** X3. For a non-empty [newCerts], an ID is in [certsToRemove oldCerts
    newCerts] exactly when it is the fingerprint of a certificate of
    [oldCerts] and of none of [newCerts]; the certificate stored under it
    is one of [oldCerts] with this fingerprint. Certificates without a
    fingerprint are therefore never removed, and count for nothing among
    the new ones. *)
Theorem certsToRemove_exact (oldCerts newCerts : list Certificate) (certID : string) :
  newCerts <> [] ->
  (is_Some (certsToRemove oldCerts newCerts !! certID) <->
   (exists cert, cert ∈ oldCerts /\ FingerprintCert cert = Ok certID) /\
   (forall new, new ∈ newCerts -> FingerprintCert new <> Ok certID)) /\
  (forall cert,
      certsToRemove oldCerts newCerts !! certID = Some cert ->
      cert ∈ oldCerts /\ FingerprintCert cert = Ok certID).
Proof.
  intros Hne. split.
  - split.
    + intros [cert Hlook]. apply certsToRemove_lookup in Hlook as (Hin & Hfp & Hnew).
      split; [eauto|assumption].
    + intros [(cert & Hin & Hfp) Hnew]. unfold certsToRemove.
      destruct newCerts as [|n rest]; [contradiction|]. cbn [length Nat.eqb].
      eapply keepIfAbsent_adds; eauto.
      intros Hids. apply newCertMap_spec in Hids as [Hempty|(new & Hin' & Hfp')].
      * now apply not_elem_of_empty in Hempty.
      * now apply (Hnew new).
  - intros cert Hlook. apply certsToRemove_lookup in Hlook as (Hin & Hfp & _). now split.
Qed.

(** X4. When every fingerprint of an old certificate is the fingerprint
    of a new one, nothing is to be removed, and the rotation only adds and
    reports no error. In particular rotating to the certificates already
    trusted removes nothing. *)
Theorem rotation_to_covering_set_removes_nothing
    (oldCerts newCerts : list Certificate) :
  (forall cert certID,
      cert ∈ oldCerts -> FingerprintCert cert = Ok certID ->
      exists new, new ∈ newCerts /\ FingerprintCert new = Ok certID) ->
  certsToRemove oldCerts newCerts = ∅ /\
  (forall certStore : S,
      rotateCerts certStore oldCerts newCerts = (addCerts certStore newCerts, None)) /\
  certsToRemove newCerts newCerts = ∅.
Proof.
  assert (forall old new,
             (forall cert certID,
                 cert ∈ old -> FingerprintCert cert = Ok certID ->
                 exists n, n ∈ new /\ FingerprintCert n = Ok certID) ->
             certsToRemove old new = ∅) as Hcovered.
  { intros old new Hcov. apply map_empty. intros certID.
    destruct (certsToRemove old new !! certID) as [cert|] eqn:Hlook; [|reflexivity].
    apply certsToRemove_lookup in Hlook as (Hin & Hfp & Hnew).
    destruct (Hcov cert certID Hin Hfp) as (n & Hn & Hfpn).
    now contradiction (Hnew n Hn). }
  intros Hcov. split; [now apply Hcovered|]. split.
  - intros certStore. unfold rotateCerts.
    rewrite (Hcovered _ _ Hcov), mapRange_empty. reflexivity.
  - apply Hcovered. eauto.
Qed.

(** ** [ValidateRoot]: failures *)

Lemma pinByCA_error (signedRoot : SignedRoot) (gun : string)
    (cas : list (string * string)) (leaves : list Certificate) (e : error) :
  pinByCA signedRoot gun cas leaves = Err e -> exists reason, e = ErrValidationFail reason.
Proof.
  revert leaves. induction cas as [|[caGunPrefix caFilepath] rest IH]; intros leaves; simpl.
  - discriminate.
  - destruct (HasPrefix gun caGunPrefix); [|apply IH].
    destruct (LoadCertFromFile caFilepath) as [caCert|e']; [|intros [= <-]; eauto].
    destruct (ValidateCertificate caCert); [intros [= <-]; eauto|apply IH].
Qed.

Lemma bootstrapTrust_error (signedRoot : SignedRoot) (gun : string)
    (trustPinning : TrustPinConfig) (leaves : list Certificate) (e : error) :
  bootstrapTrust signedRoot gun trustPinning leaves = Err e ->
  exists reason, e = ErrValidationFail reason.
Proof.
  unfold bootstrapTrust.
  destruct (Certs trustPinning !! gun) as [pinnedID|].
  - destruct (findPinnedCert pinnedID leaves); [discriminate|intros [= <-]; eauto].
  - destruct (ContainsKeyPrefix (CA trustPinning) gun).
    + destruct (0 <? size (CA trustPinning))%nat; [apply pinByCA_error|discriminate].
    + destruct (negb (TOFU trustPinning)); [intros [= <-]; eauto|discriminate].
Qed.

Lemma decideTrust_error (certStore : S) (root : Signed) (signedRoot : SignedRoot)
    (gun : string) (trustPinning : TrustPinConfig) (leaves : list Certificate)
    (e : error) :
  decideTrust certStore root signedRoot gun trustPinning leaves = Err e ->
  exists reason, e = ErrValidationFail reason.
Proof.
  unfold decideTrust. destruct (GetCertificatesByCN certStore gun) as [certsForCN err].
  destruct (match err with
            | Some e0 => negb (isErrNoCertificatesFound e0)
            | None => false
            end); [intros [= <-]; eauto|].
  destruct (negb (length certsForCN =? 0)%nat).
  - destruct (VerifyRoot root 0 (CertsToKeys certsForCN)); [intros [= <-]; eauto|].
    destruct (VerifyRoot root 0 (CertsToKeys leaves)); [intros [= <-]; eauto|discriminate].
  - destruct (bootstrapTrust signedRoot gun trustPinning leaves) as [accepted|e'] eqn:Hboot.
    + destruct (VerifyRoot root 0 (CertsToKeys accepted)); [intros [= <-]; eauto|discriminate].
    + intros [= <-]. eapply bootstrapTrust_error; eauto.
Qed.

(** X5. [ValidateRoot] changes the store only in the rotation: when it
    returns an error other than the rotation failure, the store is the one
    it was given. *)
Theorem ValidateRoot_failure_keeps_store
    (certStore certStore' : S) (root : Signed) (gun : string)
    (trustPinning : TrustPinConfig) (e : error) :
  ValidateRoot certStore root gun trustPinning = (certStore', Some e) ->
  e <> ErrRootRotationFail "failed to rotate root keys" ->
  certStore' = certStore.
Proof.
  unfold ValidateRoot. intros Hrun Hother.
  destruct (RootFromSigned root) as [signedRoot|e0]; [|now injection Hrun].
  destruct (validRootLeafCerts signedRoot gun) as [leaves|e0]; [|now injection Hrun].
  destruct (decideTrust certStore root signedRoot gun trustPinning leaves)
    as [[certsForCN accepted]|e0]; [|now injection Hrun].
  unfold rotateCerts in Hrun.
  destruct (removeCerts_outcome (mapRange (certsToRemove certsForCN accepted))
                                (addCerts certStore accepted)) as [Hnone|Hfail];
    rewrite Hrun in *; simpl in *; congruence.
Qed.

(** X6. For a root that decodes, the only errors of [ValidateRoot] are
    [ErrValidationFail] and the [ErrRootRotationFail] of a failed
    removal; no error of the store or of another collaborator comes out
    as it is. *)
Theorem ValidateRoot_error_kinds
    (certStore certStore' : S) (root : Signed) (gun : string)
    (trustPinning : TrustPinConfig) (signedRoot : SignedRoot) (e : error) :
  RootFromSigned root = Ok signedRoot ->
  ValidateRoot certStore root gun trustPinning = (certStore', Some e) ->
  (exists reason, e = ErrValidationFail reason) \/
  e = ErrRootRotationFail "failed to rotate root keys".
Proof.
  unfold ValidateRoot. intros -> Hrun.
  destruct (validRootLeafCerts signedRoot gun) as [leaves|e0];
    [|injection Hrun as _ <-; eauto].
  destruct (decideTrust certStore root signedRoot gun trustPinning leaves)
    as [[certsForCN accepted]|e0] eqn:Hdecide.
  - right. unfold rotateCerts in Hrun.
    destruct (removeCerts_outcome (mapRange (certsToRemove certsForCN accepted))
                                  (addCerts certStore accepted)) as [Hnone|Hfail];
      rewrite Hrun in *; simpl in *; congruence.
  - injection Hrun as _ <-. left. eapply decideTrust_error; eauto.
Qed.

(** ** The trust decision *)

Lemma findPinnedCert_Some (pinnedID : string) (certs : list Certificate)
    (cert : Certificate) :
  findPinnedCert pinnedID certs = Some cert ->
  cert ∈ certs /\ FingerprintCert cert = Ok pinnedID.
Proof.
  induction certs as [|c rest IH]; simpl; [discriminate|].
  destruct (FingerprintCert c) as [certID|e] eqn:Hfp.
  - destruct (String.eqb certID pinnedID) eqn:Heq.
    + intros [= <-]. apply String.eqb_eq in Heq. subst certID.
      split; [constructor|assumption].
    + intros Hrest. apply IH in Hrest as [Hin Hfp']. split; [now constructor|assumption].
  - intros Hrest. apply IH in Hrest as [Hin Hfp']. split; [now constructor|assumption].
Qed.

Lemma findPinnedCert_None (pinnedID : string) (certs : list Certificate) :
  findPinnedCert pinnedID certs = None <->
  forall cert, cert ∈ certs -> FingerprintCert cert <> Ok pinnedID.
Proof.
  induction certs as [|c rest IH]; simpl.
  - split; [intros _ cert Hin; inversion Hin|reflexivity].
  - destruct (FingerprintCert c) as [certID|e] eqn:Hfp.
    + destruct (String.eqb certID pinnedID) eqn:Heq.
      * apply String.eqb_eq in Heq. subst certID. split; [discriminate|].
        intros Hall. exfalso. apply (Hall c); [constructor|assumption].
      * apply String.eqb_neq in Heq. rewrite IH. split.
        -- intros Hall cert Hin. apply elem_of_cons in Hin as [->|Hin]; [|now apply Hall].
           rewrite Hfp. congruence.
        -- intros Hall cert Hin. apply Hall. now constructor.
    + rewrite IH. split.
      * intros Hall cert Hin. apply elem_of_cons in Hin as [->|Hin]; [|now apply Hall].
        rewrite Hfp. discriminate.
      * intros Hall cert Hin. apply Hall. now constructor.
Qed.

(** X7. With a pinned certificate ID for the GUN the trust set is one
    candidate leaf with this ID as fingerprint, or the bootstrap fails
    when no candidate leaf has it; the CA pins and the TOFU flag of the
    configuration play no part. *)
Theorem pinned_certificate_decides
    (signedRoot : SignedRoot) (gun pinnedID : string) (trustPinning : TrustPinConfig)
    (leaves : list Certificate) :
  Certs trustPinning !! gun = Some pinnedID ->
  (forall accepted,
      bootstrapTrust signedRoot gun trustPinning leaves = Ok accepted ->
      exists cert,
        accepted = [cert] /\ cert ∈ leaves /\ FingerprintCert cert = Ok pinnedID) /\
  ((forall cert, cert ∈ leaves -> FingerprintCert cert <> Ok pinnedID) <->
   bootstrapTrust signedRoot gun trustPinning leaves
   = Err (ErrValidationFail "failed to find matching certificate ID ")) /\
  (forall cas tofu,
      bootstrapTrust signedRoot gun
        {| CA := cas; Certs := Certs trustPinning; TOFU := tofu |} leaves
      = bootstrapTrust signedRoot gun trustPinning leaves).
Proof.
  intros Hpin. unfold bootstrapTrust. simpl. rewrite Hpin. split; [|split].
  - intros accepted Hok.
    destruct (findPinnedCert pinnedID leaves) as [cert|] eqn:Hfind; [|discriminate].
    injection Hok as <-. apply findPinnedCert_Some in Hfind as [Hin Hfp]. eauto.
  - rewrite <- findPinnedCert_None.
    destruct (findPinnedCert pinnedID leaves); split; congruence.
  - reflexivity.
Qed.

Lemma bootstrapTrust_subset (signedRoot : SignedRoot) (gun : string)
    (trustPinning : TrustPinConfig) (leaves accepted : list Certificate) :
  bootstrapTrust signedRoot gun trustPinning leaves = Ok accepted ->
  forall cert, cert ∈ accepted -> cert ∈ leaves.
Proof.
  unfold bootstrapTrust.
  destruct (Certs trustPinning !! gun) as [pinnedID|].
  - destruct (findPinnedCert pinnedID leaves) as [c|] eqn:Hfind; [|discriminate].
    intros [= <-] cert Hin. apply list_elem_of_singleton in Hin. subst cert.
    now apply findPinnedCert_Some in Hfind.
  - destruct (ContainsKeyPrefix (CA trustPinning) gun).
    + destruct (0 <? size (CA trustPinning))%nat; [|now intros [= <-]].
      intros Hpin cert Hin. apply pinByCA_retained in Hpin. subst accepted.
      apply list_elem_of_In, filter_In in Hin as [Hin _]. now apply list_elem_of_In.
    + destruct (negb (TOFU trustPinning)); [discriminate|now intros [= <-]].
Qed.

(** ** [ValidateRoot]: success *)

(** X8. When [ValidateRoot] succeeds, the root decodes and has valid
    leaves, the accepted certificates are among these leaves, the root has
    passed [VerifyRoot] against the accepted certificates and, if the
    store held certificates for the GUN, also against those; the store is
    the one the rotation leaves. *)
Theorem ValidateRoot_success_is_verified
    (certStore certStore' : S) (root : Signed) (gun : string)
    (trustPinning : TrustPinConfig) :
  ValidateRoot certStore root gun trustPinning = (certStore', None) ->
  exists signedRoot leaves accepted,
    RootFromSigned root = Ok signedRoot /\
    validRootLeafCerts signedRoot gun = Ok leaves /\
    (forall cert, cert ∈ accepted -> cert ∈ leaves) /\
    VerifyRoot root 0 (CertsToKeys accepted) = None /\
    (fst (GetCertificatesByCN certStore gun) <> [] ->
     accepted = leaves /\
     VerifyRoot root 0 (CertsToKeys (fst (GetCertificatesByCN certStore gun))) = None) /\
    rotateCerts certStore (fst (GetCertificatesByCN certStore gun)) accepted
    = (certStore', None).
Proof.
  unfold ValidateRoot. intros Hrun.
  destruct (RootFromSigned root) as [signedRoot|e] eqn:Hroot; [|discriminate].
  destruct (validRootLeafCerts signedRoot gun) as [leaves|e] eqn:Hleaves; [|discriminate].
  destruct (decideTrust certStore root signedRoot gun trustPinning leaves)
    as [[certsForCN accepted]|e] eqn:Hdecide; [|discriminate].
  exists signedRoot, leaves, accepted. split; [reflexivity|]. split; [assumption|].
  unfold decideTrust in Hdecide.
  destruct (GetCertificatesByCN certStore gun) as [stored err]. simpl.
  destruct (match err with
            | Some e0 => negb (isErrNoCertificatesFound e0)
            | None => false
            end); [discriminate|].
  destruct stored as [|c rest]; simpl in Hdecide.
  - destruct (bootstrapTrust signedRoot gun trustPinning leaves) as [pinned|e] eqn:Hboot;
      [|discriminate].
    destruct (VerifyRoot root 0 (CertsToKeys pinned)) eqn:Hverify; [discriminate|].
    injection Hdecide as <- <-.
    split; [now apply (bootstrapTrust_subset _ _ _ _ _ Hboot)|].
    split; [assumption|]. split; [congruence|assumption].
  - destruct (VerifyRoot root 0 (CertsToKeys (c :: rest))) eqn:Hold; [discriminate|].
    destruct (VerifyRoot root 0 (CertsToKeys leaves)) eqn:Hnew; [discriminate|].
    injection Hdecide as <- <-.
    split; [auto|]. split; [assumption|]. split; [auto|assumption].
Qed.

(** X9. Once the store holds certificates for the GUN, the trust pinning
    configuration has no influence on [ValidateRoot]. *)
Theorem existing_trust_ignores_pinning
    (certStore : S) (root : Signed) (gun : string)
    (trustPinning trustPinning' : TrustPinConfig) :
  fst (GetCertificatesByCN certStore gun) <> [] ->
  ValidateRoot certStore root gun trustPinning
  = ValidateRoot certStore root gun trustPinning'.
Proof.
  intros Hstored. unfold ValidateRoot, decideTrust.
  destruct (RootFromSigned root) as [signedRoot|e]; [|reflexivity].
  destruct (validRootLeafCerts signedRoot gun) as [leaves|e]; [|reflexivity].
  destruct (GetCertificatesByCN certStore gun) as [[|c rest] err];
    [contradiction|reflexivity].
Qed.

Lemma certsToRemove_no_old (newCerts : list Certificate) :
  certsToRemove [] newCerts = ∅.
Proof. unfold certsToRemove. now destruct (length newCerts =? 0)%nat. Qed.

(** X10. When the store holds no certificate for the GUN, nothing is
    removed: a root that decodes is either rejected with
    [ErrValidationFail], the store unchanged, or accepted, and the store is
    then the given one with [AddCert] applied to a set of valid leaves of
    the root that passes [VerifyRoot]. *)
Theorem first_trust_only_adds
    (certStore : S) (root : Signed) (gun : string) (trustPinning : TrustPinConfig)
    (signedRoot : SignedRoot) :
  RootFromSigned root = Ok signedRoot ->
  fst (GetCertificatesByCN certStore gun) = [] ->
  (exists reason,
      ValidateRoot certStore root gun trustPinning
      = (certStore, Some (ErrValidationFail reason))) \/
  (exists leaves accepted,
      validRootLeafCerts signedRoot gun = Ok leaves /\
      bootstrapTrust signedRoot gun trustPinning leaves = Ok accepted /\
      VerifyRoot root 0 (CertsToKeys accepted) = None /\
      ValidateRoot certStore root gun trustPinning
      = (addCerts certStore accepted, None)).
Proof.
  intros Hroot Hnone. unfold ValidateRoot, decideTrust. rewrite Hroot.
  destruct (validRootLeafCerts signedRoot gun) as [leaves|e]; [|eauto].
  destruct (GetCertificatesByCN certStore gun) as [stored err]. simpl in Hnone. subst stored.
  destruct (match err with
            | Some e0 => negb (isErrNoCertificatesFound e0)
            | None => false
            end); [eauto|].
  simpl.
  destruct (bootstrapTrust signedRoot gun trustPinning leaves) as [accepted|e] eqn:Hboot.
  - destruct (VerifyRoot root 0 (CertsToKeys accepted)) eqn:Hverify; [eauto|].
    right. exists leaves, accepted. repeat split; try assumption.
    unfold rotateCerts. now rewrite certsToRemove_no_old, mapRange_empty.
  - left. apply bootstrapTrust_error in Hboot as [reason ->]. eauto.
Qed.

(** X11. Trust on first use: with no certificate in the store, no pinned
    ID, no matching CA prefix and TOFU on, a root that passes [VerifyRoot]
    against its valid leaves is accepted: the call succeeds, and the store
    is the given one after [AddCert] on each valid leaf in turn. *)
Theorem TOFU_trusts_all_valid_leaves
    (certStore : S) (root : Signed) (gun : string) (trustPinning : TrustPinConfig)
    (signedRoot : SignedRoot) (leaves : list Certificate) :
  RootFromSigned root = Ok signedRoot ->
  validRootLeafCerts signedRoot gun = Ok leaves ->
  fst (GetCertificatesByCN certStore gun) = [] ->
  snd (GetCertificatesByCN certStore gun) = None \/
  snd (GetCertificatesByCN certStore gun) = Some ErrNoCertificatesFound ->
  Certs trustPinning !! gun = None ->
  ContainsKeyPrefix (CA trustPinning) gun = false ->
  TOFU trustPinning = true ->
  VerifyRoot root 0 (CertsToKeys leaves) = None ->
  ValidateRoot certStore root gun trustPinning
  = (foldl (fun st cert => fst (AddCert st cert)) certStore leaves, None).
Proof.
  intros Hroot Hleaves Hnone Herr Hcerts Hca Htofu Hverify.
  unfold ValidateRoot, decideTrust. rewrite Hroot, Hleaves.
  destruct (GetCertificatesByCN certStore gun) as [stored err]. simpl in Hnone, Herr.
  subst stored.
  assert (match err with
          | Some e => negb (isErrNoCertificatesFound e)
          | None => false
          end = false) as -> by (destruct Herr as [-> | ->]; reflexivity).
  simpl. unfold bootstrapTrust. rewrite Hcerts, Hca, Htofu. simpl. rewrite Hverify.
  unfold rotateCerts.
  now rewrite certsToRemove_no_old, mapRange_empty, addCerts_foldl.
Qed.

(** X12. In the CA branch the bootstrap succeeds exactly when the file of
    every pin whose prefix matches the GUN holds a certificate that
    passes [ValidateCertificate]; the files of the other pins are not
    looked at. Every failure is an [ErrValidationFail]. *)
Theorem CA_pins_must_all_load
    (signedRoot : SignedRoot) (gun : string) (trustPinning : TrustPinConfig)
    (leaves : list Certificate) :
  Certs trustPinning !! gun = None ->
  ContainsKeyPrefix (CA trustPinning) gun = true ->
  ((exists retained, bootstrapTrust signedRoot gun trustPinning leaves = Ok retained) <->
   (forall caGunPrefix caFilepath,
       CA trustPinning !! caGunPrefix = Some caFilepath ->
       HasPrefix gun caGunPrefix = true ->
       exists caCert, LoadCertFromFile caFilepath = Ok caCert /\
                      ValidateCertificate caCert = None)) /\
  (forall e,
      bootstrapTrust signedRoot gun trustPinning leaves = Err e ->
      exists reason, e = ErrValidationFail reason).
Proof.
  intros Hcerts Hprefix. split; [|intros e; apply bootstrapTrust_error].
  rewrite bootstrapTrust_CA by assumption.
  rewrite <- pinByCA_succeeds, Forall_forall. split.
  - intros Hall caGunPrefix caFilepath Hentry Hpre.
    apply mapRange_lookup in Hentry. now apply (Hall _ Hentry).
  - intros Hall [caGunPrefix caFilepath] Hin Hpre. simpl in *.
    apply (Hall caGunPrefix caFilepath); [now apply mapRange_lookup|assumption].
Qed.

(** ** [ValidateRoot]: failures before the trust decision *)

(** X22. A root that [RootFromSigned] does not decode makes [ValidateRoot]
    return the decoding error as it is, not as an [ErrValidationFail],
    with the store unchanged. *)
Theorem ValidateRoot_returns_decoding_error
    (certStore : S) (root : Signed) (gun : string) (trustPinning : TrustPinConfig)
    (err : error) :
  RootFromSigned root = Err err ->
  ValidateRoot certStore root gun trustPinning = (certStore, Some err).
Proof.
  intros Hroot. unfold ValidateRoot. now rewrite Hroot.
Qed.

(** X23. When the store fails to list the certificates of the GUN with an
    error other than [ErrNoCertificatesFound], a root that decodes is
    rejected with [ErrValidationFail] and the store is unchanged, whatever
    certificates the store returned and whatever the root's signatures
    are. *)
Theorem store_failure_rejects_root
    (certStore : S) (root : Signed) (gun : string) (trustPinning : TrustPinConfig)
    (signedRoot : SignedRoot) (certsForCN : list Certificate) (err : error) :
  RootFromSigned root = Ok signedRoot ->
  GetCertificatesByCN certStore gun = (certsForCN, Some err) ->
  err <> ErrNoCertificatesFound ->
  exists reason,
    ValidateRoot certStore root gun trustPinning
    = (certStore, Some (ErrValidationFail reason)).
Proof.
  intros Hroot Hstore Hother. unfold ValidateRoot, decideTrust. rewrite Hroot, Hstore.
  destruct (validRootLeafCerts signedRoot gun) as [leaves|e]; [|eauto].
  destruct err; simpl; eauto. contradiction.
Qed.

End Validator.

(** ** Error messages *)

(** X13. The messages of the two error types of the package never
    coincide, and a message determines the reason it was built from. *)
Theorem error_messages_distinguish (reason reason' : string) :
  ErrValidationFail_Error reason <> ErrRootRotationFail_Error reason' /\
  (ErrValidationFail_Error reason = ErrValidationFail_Error reason' -> reason = reason') /\
  (ErrRootRotationFail_Error reason = ErrRootRotationFail_Error reason' ->
   reason = reason').
Proof.
  unfold ErrValidationFail_Error, ErrRootRotationFail_Error. simpl.
  split; [discriminate|]. split; intros Heq; now simplify_eq.
Qed.

(** ** The properties at work on a repository *)

Section Runs.
Import CertsFixtures.

Lemma parseAllCerts_bundles_witness :
  exists ints,
    snd (parseAllCerts (rootWith ["pem-A"])) !! "cert-A" = Some ints /\
    fromRootBundle (rootWith ["pem-A"]) "cert-A" certA ints.
Proof.
  apply (proj1 (parseAllCerts_bundles (rootWith ["pem-A"]))). by_computation.
Defined.

Lemma validRootLeafCerts_exact_witness :
  exists certs, validRootLeafCerts (rootWith ["pem-A"; "pem-old"]) gun = Ok certs.
Proof.
  apply (proj2 (validRootLeafCerts_exact (rootWith ["pem-A"; "pem-old"]) gun)
               "cert-A" certA).
  - by_computation.
  - reflexivity.
  - vm_compute. discriminate.
  - discriminate.
  - discriminate.
  - discriminate.
Defined.

Lemma certsToRemove_exact_witness :
  is_Some (certsToRemove [certA] [certB] !! "cert-A").
Proof.
  destruct (certsToRemove_exact [certA] [certB] "cert-A") as [Hdom _]; [discriminate|].
  apply Hdom. split.
  - exists certA. split; [constructor|reflexivity].
  - intros new Hnew. apply list_elem_of_singleton in Hnew. subst new. discriminate.
Defined.

Lemma rotation_to_covering_set_removes_nothing_witness :
  rotateCerts (storeWith [certA]) [certA] [certA; certB]
  = (addCerts (storeWith [certA]) [certA; certB], None).
Proof.
  destruct (rotation_to_covering_set_removes_nothing (S := TestStore)
              [certA] [certA; certB]) as (_ & Hrotate & _).
  - intros cert certID Hin Hfp. apply list_elem_of_singleton in Hin. subst cert.
    exists certA. split; [constructor|assumption].
  - apply Hrotate.
Defined.

Lemma ValidateRoot_failure_keeps_store_witness :
  fst (ValidateRoot (storeWith [certA]) (signedBy "root-B" [certA]) gun tofu)
  = storeWith [certA].
Proof.
  apply (ValidateRoot_failure_keeps_store
           (storeWith [certA]) _ (signedBy "root-B" [certA]) gun tofu
           (ErrValidationFail "failed to validate integrity of roots")).
  - by_computation.
  - discriminate.
Defined.

Lemma ValidateRoot_error_kinds_witness :
  (exists reason, ErrOther "disk full" = ErrValidationFail reason) \/
  ErrRootRotationFail "failed to rotate root keys"
  = ErrRootRotationFail "failed to rotate root keys".
Proof.
  destruct (ValidateRoot_error_kinds
              brokenStore brokenStore (signedBy "root-B" [certA; certB]) gun tofu
              (rootWith ["pem-B"]) (ErrRootRotationFail "failed to rotate root keys"))
    as [[reason Hreason]|Hrotation].
  - by_computation.
  - by_computation.
  - discriminate.
  - now right.
Defined.

Lemma pinned_certificate_decides_witness :
  exists cert,
    [certB] = [cert] /\ cert ∈ [certA; certB] /\ FingerprintCert cert = Ok "cert-B".
Proof.
  apply (proj1 (pinned_certificate_decides
                  (rootWith ["pem-A"; "pem-B"]) gun "cert-B" pinnedB [certA; certB]
                  ltac:(by_computation))).
  by_computation.
Defined.

Lemma ValidateRoot_success_is_verified_witness :
  exists signedRoot leaves accepted,
    RootFromSigned (signedBy "root-B" [certA; certB]) = Ok signedRoot /\
    validRootLeafCerts signedRoot gun = Ok leaves /\
    (forall cert, cert ∈ accepted -> cert ∈ leaves) /\
    VerifyRoot (signedBy "root-B" [certA; certB]) 0 (CertsToKeys accepted) = None /\
    (fst (GetCertificatesByCN (storeWith [certA]) gun) <> [] ->
     accepted = leaves /\
     VerifyRoot (signedBy "root-B" [certA; certB]) 0
                (CertsToKeys (fst (GetCertificatesByCN (storeWith [certA]) gun))) = None) /\
    rotateCerts (storeWith [certA]) (fst (GetCertificatesByCN (storeWith [certA]) gun))
                accepted
    = (storeWith [certB], None).
Proof.
  apply (ValidateRoot_success_is_verified
           (storeWith [certA]) (storeWith [certB])
           (signedBy "root-B" [certA; certB]) gun tofu).
  by_computation.
Defined.

Lemma existing_trust_ignores_pinning_witness :
  ValidateRoot (storeWith [certA]) (signedBy "root-B" [certA; certB]) gun tofu
  = ValidateRoot (storeWith [certA]) (signedBy "root-B" [certA; certB]) gun noTrust.
Proof.
  apply existing_trust_ignores_pinning. vm_compute. discriminate.
Defined.

Lemma first_trust_only_adds_witness :
  (exists reason,
      ValidateRoot (storeWith []) (signedBy "root-A" [certA]) gun pinnedB
      = (storeWith [], Some (ErrValidationFail reason))) \/
  (exists leaves accepted,
      validRootLeafCerts (rootWith ["pem-A"]) gun = Ok leaves /\
      bootstrapTrust (rootWith ["pem-A"]) gun pinnedB leaves = Ok accepted /\
      VerifyRoot (signedBy "root-A" [certA]) 0 (CertsToKeys accepted) = None /\
      ValidateRoot (storeWith []) (signedBy "root-A" [certA]) gun pinnedB
      = (addCerts (storeWith []) accepted, None)).
Proof.
  apply (first_trust_only_adds
           (storeWith []) (signedBy "root-A" [certA]) gun pinnedB (rootWith ["pem-A"])).
  - by_computation.
  - reflexivity.
Defined.

Lemma TOFU_trusts_all_valid_leaves_witness :
  ValidateRoot (storeWith []) (signedBy "root-AB" [certB]) gun tofu
  = (storeWith [certA; certB], None).
Proof.
  rewrite (TOFU_trusts_all_valid_leaves
             (storeWith []) (signedBy "root-AB" [certB]) gun tofu
             (rootWith ["pem-A"; "pem-B"]) [certA; certB]).
  - reflexivity.
  - by_computation.
  - by_computation.
  - reflexivity.
  - right; reflexivity.
  - reflexivity.
  - by_computation.
  - reflexivity.
  - by_computation.
Defined.

Lemma CA_pins_must_all_load_witness :
  exists caCert,
    LoadCertFromFile "ca-1.crt" = Ok caCert /\ ValidateCertificate caCert = None.
Proof.
  destruct (CA_pins_must_all_load
              (rootWith ["pem-A"; "pem-B"]) gun twoCAs [certA; certB]) as [Hiff _].
  - reflexivity.
  - by_computation.
  - apply (proj1 Hiff) with (caGunPrefix := "example.com/").
    + exists []. by_computation.
    + by_computation.
    + reflexivity.
Defined.

Lemma ValidateRoot_returns_decoding_error_witness :
  ValidateRoot (storeWith [certA]) (signedBy "not a root" [certA]) gun tofu
  = (storeWith [certA], Some (ErrOther "invalid root")).
Proof.
  apply ValidateRoot_returns_decoding_error. by_computation.
Defined.

Lemma store_failure_rejects_root_witness :
  exists reason,
    ValidateRoot offline (signedBy "root-A" [certA]) gun tofu
    = (offline, Some (ErrValidationFail reason)).
Proof.
  apply (store_failure_rejects_root offline (signedBy "root-A" [certA]) gun tofu
           (rootWith ["pem-A"]) [] (ErrOther "store unavailable")).
  - by_computation.
  - reflexivity.
  - discriminate.
Defined.

Lemma error_messages_distinguish_witness :
  "failed to rotate root keys" = "failed to rotate root keys".
Proof.
  apply (proj2 (proj2 (error_messages_distinguish
                         "failed to rotate root keys" "failed to rotate root keys"))).
  reflexivity.
Defined.

End Runs.

End CertsExtras.

(** * Further properties of the key registry and of the timestamp engine *)

Module TimestampExtras.
Import Timestamp TimestampTheory.

Section Engine.
Context {S K : Type} {metaStore : MetaStore S} {cryptoService : CryptoService K}
        {ext : Externals S K}.

(** ** The key registry *)

(** X14. When the store has no key, [Create] yields one and [SetKey]
    accepts it, the created key is returned after these three calls; and
    if the store then finds what was set, the next call returns the same
    key after one [GetKey], without creating another. *)
Theorem registry_creates_key_once
    (gun createAlgorithm : string) (w : World S K) (s1 s2 s3 : S) (k1 : K)
    (key : PublicKey) :
  GetKey (store w) gun CanonicalTimestampRole = (s1, Err ErrNoKey) ->
  Create (crypto w) "timestamp" gun createAlgorithm = (k1, Ok key) ->
  SetKey s1 gun CanonicalTimestampRole (Algorithm key) (Public key) = (s2, None) ->
  GetKey s2 gun CanonicalTimestampRole = (s3, Ok (Algorithm key, Public key)) ->
  let w1 := after w s2 k1
                  [CallGetKey gun CanonicalTimestampRole;
                   CallCreate "timestamp" gun createAlgorithm;
                   CallSetKey gun CanonicalTimestampRole (Algorithm key) (Public key)] in
  GetOrCreateTimestampKey gun createAlgorithm w = (Ok key, w1) /\
  GetOrCreateTimestampKey gun createAlgorithm w1
  = (Ok key, after w1 s3 k1 [CallGetKey gun CanonicalTimestampRole]).
Proof.
  intros Hget Hcreate Hset Hagain w1. split.
  - unfold GetOrCreateTimestampKey, bind, storeGetKey, cryptoCreate, storeSetKey, w1, after.
    rewrite Hget. simpl. rewrite Hcreate. simpl. rewrite Hset. simpl.
    now rewrite <- !app_assoc.
  - unfold GetOrCreateTimestampKey, bind, storeGetKey. simpl. rewrite Hagain.
    now destruct key.
Qed.

(** X15. The registry returns as they are: the failure of [Create], after
    which [SetKey] is not called; a failure of [SetKey] other than
    [ErrKeyExists], after which the store is not read again; and the
    failure of the second [GetKey] after a lost race. *)
Theorem registry_propagates_failures
    (gun createAlgorithm : string) (w : World S K) (s1 : S) (err : error) :
  GetKey (store w) gun CanonicalTimestampRole = (s1, Err ErrNoKey) ->
  (forall k1,
      Create (crypto w) "timestamp" gun createAlgorithm = (k1, Err err) ->
      GetOrCreateTimestampKey gun createAlgorithm w
      = (Err err,
         after w s1 k1 [CallGetKey gun CanonicalTimestampRole;
                        CallCreate "timestamp" gun createAlgorithm])) /\
  (forall k1 key s2,
      Create (crypto w) "timestamp" gun createAlgorithm = (k1, Ok key) ->
      SetKey s1 gun CanonicalTimestampRole (Algorithm key) (Public key) = (s2, Some err) ->
      err <> ErrKeyExists ->
      GetOrCreateTimestampKey gun createAlgorithm w
      = (Err err,
         after w s2 k1
               [CallGetKey gun CanonicalTimestampRole;
                CallCreate "timestamp" gun createAlgorithm;
                CallSetKey gun CanonicalTimestampRole (Algorithm key) (Public key)])) /\
  (forall k1 key s2 s3,
      Create (crypto w) "timestamp" gun createAlgorithm = (k1, Ok key) ->
      SetKey s1 gun CanonicalTimestampRole (Algorithm key) (Public key)
      = (s2, Some ErrKeyExists) ->
      GetKey s2 gun CanonicalTimestampRole = (s3, Err err) ->
      GetOrCreateTimestampKey gun createAlgorithm w
      = (Err err,
         after w s3 k1
               [CallGetKey gun CanonicalTimestampRole;
                CallCreate "timestamp" gun createAlgorithm;
                CallSetKey gun CanonicalTimestampRole (Algorithm key) (Public key);
                CallGetKey gun CanonicalTimestampRole])).
Proof.
  intros Hget.
  unfold GetOrCreateTimestampKey, bind, storeGetKey, cryptoCreate, storeSetKey, after.
  rewrite Hget. simpl. split; [|split].
  - intros k1 Hcreate. rewrite Hcreate. simpl. now rewrite <- !app_assoc.
  - intros k1 key s2 Hcreate Hset Hother. rewrite Hcreate. simpl. rewrite Hset.
    destruct err; simpl; now rewrite <- ?app_assoc.
  - intros k1 key s2 s3 Hcreate Hset Hagain. rewrite Hcreate. simpl. rewrite Hset.
    simpl. rewrite Hagain. simpl. now rewrite <- !app_assoc.
Qed.

(** X16. Whatever the store and the crypto service answer, one call of
    the registry makes one of four sequences of calls: [GetKey]; [GetKey],
    [Create]; [GetKey], [Create], [SetKey]; or these three and a second
    [GetKey]. So it creates at most one key, sets at most one, the one
    created, and never sets a key without having looked for one. *)
Theorem registry_call_sequences (gun createAlgorithm : string) (w : World S K) :
  exists made,
    calls (snd (GetOrCreateTimestampKey gun createAlgorithm w)) = (calls w ++ made)%list /\
    (made = [CallGetKey gun CanonicalTimestampRole] \/
     made = [CallGetKey gun CanonicalTimestampRole;
             CallCreate "timestamp" gun createAlgorithm] \/
     exists k1 key,
       Create (crypto w) "timestamp" gun createAlgorithm = (k1, Ok key) /\
       (made = [CallGetKey gun CanonicalTimestampRole;
                CallCreate "timestamp" gun createAlgorithm;
                CallSetKey gun CanonicalTimestampRole (Algorithm key) (Public key)] \/
        made = [CallGetKey gun CanonicalTimestampRole;
                CallCreate "timestamp" gun createAlgorithm;
                CallSetKey gun CanonicalTimestampRole (Algorithm key) (Public key);
                CallGetKey gun CanonicalTimestampRole])).
Proof.
  unfold GetOrCreateTimestampKey, bind, storeGetKey, cryptoCreate, storeSetKey, ret.
  destruct (GetKey (store w) gun CanonicalTimestampRole) as [s1 [[alg pub]|err]]; simpl.
  { eexists. split; [reflexivity|]. now left. }
  destruct (isErrNoKey err); simpl; [|eexists; split; [reflexivity|now left]].
  destruct (Create (crypto w) "timestamp" gun createAlgorithm) as [k1 [key|err']] eqn:Hcreate;
    simpl.
  2:{ eexists. split; [now rewrite <- app_assoc|]. right. now left. }
  destruct (SetKey s1 gun CanonicalTimestampRole (Algorithm key) (Public key))
    as [s2 [err'|]]; simpl.
  2:{ eexists. split; [now rewrite <- !app_assoc|]. right. right.
      exists k1, key. split; [reflexivity|now left]. }
  destruct (isErrKeyExists err'); simpl.
  2:{ eexists. split; [now rewrite <- !app_assoc|]. right. right.
      exists k1, key. split; [reflexivity|now left]. }
  destruct (GetKey s2 gun CanonicalTimestampRole) as [s3 [[alg pub]|err'']]; simpl;
    (eexists; split; [now rewrite <- !app_assoc|]; right; right;
     exists k1, key; split; [reflexivity|now right]).
Qed.

(** ** [createTimestamp] and [NewTimestampUpdate] *)

Lemma NewTimestampUpdate_shape (prev : option SignedTimestamp) (repo : Repo)
    (w : World S K) :
  (calls (snd (NewTimestampUpdate prev repo w)) = calls w /\
   exists e, fst (NewTimestampUpdate prev repo w) = Err e) \/
  (calls (snd (NewTimestampUpdate prev repo w))
   = (calls w ++ [CallSignTimestamp (DefaultExpires CanonicalTimestampRole)])%list /\
   forall update,
     fst (NewTimestampUpdate prev repo w) = Ok update ->
     Role update = CanonicalTimestampRole).
Proof.
  unfold NewTimestampUpdate, bind, repoSignTimestamp, ret.
  destruct (match prev with
            | Some prev0 => Ok (SetTimestamp repo prev0)
            | None => InitTimestamp repo
            end) as [repo'|e]; [|left; simpl; eauto].
  right.
  destruct (SignTimestamp repo' (DefaultExpires CanonicalTimestampRole) (crypto w))
    as [k [[repo'' sgnd]|e]]; [destruct (marshalSigned sgnd)|]; simpl;
    (split; [reflexivity|]); intros update Hok; try discriminate.
  now injection Hok as <-.
Qed.

Lemma createTimestamp_shape
    (gun : string) (prev : option SignedTimestamp) (snapshot : string) (w : World S K) :
  let run := createTimestamp gun prev snapshot w in
  (calls (snd run) = (calls w ++ [CallGetCurrent gun CanonicalRootRole])%list /\
   exists e, fst run = Err e) \/
  (calls (snd run)
   = (calls w ++ [CallGetCurrent gun CanonicalRootRole;
                  CallSignTimestamp (DefaultExpires CanonicalTimestampRole)])%list /\
   (exists s modified root r sn,
       GetCurrent (store w) gun CanonicalRootRole = (s, Ok (modified, root)) /\
       unmarshalRoot root = Ok r /\ unmarshalSnapshot snapshot = Ok sn) /\
   forall update, fst run = Ok update -> Role update = CanonicalTimestampRole).
Proof.
  unfold createTimestamp, bind, storeGetCurrent, ret.
  destruct (GetCurrent (store w) gun CanonicalRootRole) as [s [[modified root]|e]] eqn:Hget;
    [|left; simpl; eauto].
  destruct (unmarshalRoot root) as [r|e] eqn:Hroot; [|left; simpl; eauto].
  destruct (unmarshalSnapshot snapshot) as [sn|e] eqn:Hsn; [|left; simpl; eauto].
  match goal with
  | |- context [NewTimestampUpdate ?p ?r ?w'] =>
    destruct (NewTimestampUpdate_shape p r w') as [[Hcalls Herr]|[Hcalls Hrole]]
  end.
  - left. simpl in *. split; assumption.
  - right. simpl in *. split; [now rewrite Hcalls, <- app_assoc|].
    split; [|assumption]. exists s, modified, root, r, sn. now repeat split.
Qed.

(** X17. [createTimestamp] reads the root from the store and nothing
    else, and writes nothing. It signs, once and with the default expiry
    of the timestamp role, only when the root is there and root and
    snapshot decode; otherwise it fails without signing. An update it
    returns is for the timestamp role. *)
Theorem createTimestamp_signs_only_decoded
    (gun : string) (prev : option SignedTimestamp) (snapshot : string) (w : World S K) :
  let run := createTimestamp gun prev snapshot w in
  (calls (snd run) = (calls w ++ [CallGetCurrent gun CanonicalRootRole])%list /\
   exists e, fst run = Err e) \/
  (calls (snd run)
   = (calls w ++ [CallGetCurrent gun CanonicalRootRole;
                  CallSignTimestamp (DefaultExpires CanonicalTimestampRole)])%list /\
   (exists s modified root r sn,
       GetCurrent (store w) gun CanonicalRootRole = (s, Ok (modified, root)) /\
       unmarshalRoot root = Ok r /\ unmarshalSnapshot snapshot = Ok sn) /\
   forall update, fst run = Ok update -> Role update = CanonicalTimestampRole).
Proof. apply createTimestamp_shape. Qed.

(** ** [GetOrCreateTimestamp] *)

Lemma GetOrCreateTimestamp_early_failures
    (gun : string) (w : World S K) (s1 : S) (lastModified : Z) (timestampJSON : string)
    (err : error) :
  GetCurrent (store w) gun CanonicalTimestampRole = (s1, Ok (lastModified, timestampJSON)) ->
  (unmarshalTimestamp timestampJSON = Err err ->
   GetOrCreateTimestamp gun w
   = (Err err, after w s1 (crypto w) [CallGetCurrent gun CanonicalTimestampRole])) /\
  (forall prev s2 k2,
      unmarshalTimestamp timestampJSON = Ok prev ->
      GetOrCreateSnapshot gun s1 (crypto w) = ((s2, k2), Err err) ->
      GetOrCreateTimestamp gun w
      = (Err err, after w s2 k2 [CallGetCurrent gun CanonicalTimestampRole;
                                 CallGetOrCreateSnapshot gun])).
Proof.
  intros Hget.
  unfold GetOrCreateTimestamp, bind, storeGetCurrent, snapshotGetOrCreateSnapshot, after.
  rewrite Hget. split.
  - now intros ->.
  - intros prev s2 k2 -> Hsnapshot. simpl. rewrite Hsnapshot. simpl.
    now rewrite <- app_assoc.
Qed.

(** X18. A stored timestamp that does not decode makes the call fail with
    the decoding error after the one read: the snapshot engine is not
    called and nothing is written. A failure of the snapshot engine is
    returned in the same way, after these two calls. *)
Theorem GetOrCreateTimestamp_propagates_corruption
    (gun : string) (w : World S K) (s1 : S) (lastModified : Z) (timestampJSON : string)
    (err : error) :
  GetCurrent (store w) gun CanonicalTimestampRole = (s1, Ok (lastModified, timestampJSON)) ->
  (unmarshalTimestamp timestampJSON = Err err ->
   GetOrCreateTimestamp gun w
   = (Err err, after w s1 (crypto w) [CallGetCurrent gun CanonicalTimestampRole])) /\
  (forall prev s2 k2,
      unmarshalTimestamp timestampJSON = Ok prev ->
      GetOrCreateSnapshot gun s1 (crypto w) = ((s2, k2), Err err) ->
      GetOrCreateTimestamp gun w
      = (Err err, after w s2 k2 [CallGetCurrent gun CanonicalTimestampRole;
                                 CallGetOrCreateSnapshot gun])).
Proof. apply GetOrCreateTimestamp_early_failures. Qed.

Lemma createTimestamp_role (gun : string) (prev : option SignedTimestamp)
    (snapshot : string) (w w3 : World S K) (update : MetaUpdate) :
  createTimestamp gun prev snapshot w = (Ok update, w3) ->
  Role update = CanonicalTimestampRole.
Proof.
  intros Hrun.
  destruct (createTimestamp_shape gun prev snapshot w)
    as [[_ [e Herr]]|(_ & _ & Hrole)]; rewrite Hrun in *; simpl in *;
    [discriminate|now apply Hrole].
Qed.

(** X19. The bytes that [GetOrCreateTimestamp] returns are in the store:
    they are either the stored timestamp, returned with its modification
    time after the two reads, or the data of a timestamp-role update that
    [UpdateCurrent] has just accepted for this GUN, returned with the
    current time. *)
Theorem GetOrCreateTimestamp_returns_persisted
    (gun : string) (w w' : World S K) (modified : Z) (bytes : string) :
  GetOrCreateTimestamp gun w = (Ok (modified, bytes), w') ->
  (exists s1,
      GetCurrent (store w) gun CanonicalTimestampRole = (s1, Ok (modified, bytes)) /\
      calls w' = (calls w ++ [CallGetCurrent gun CanonicalTimestampRole;
                              CallGetOrCreateSnapshot gun])%list) \/
  (exists update w3 s4,
      Role update = CanonicalTimestampRole /\ Data update = bytes /\ modified = now /\
      UpdateCurrent (store w3) gun update = (s4, None) /\
      w' = after w3 s4 (crypto w3) [CallUpdateCurrent gun update]).
Proof.
  intros Hrun.
  destruct (GetCurrent (store w) gun CanonicalTimestampRole)
    as [s1 [[lastModified timestampJSON]|e]] eqn:Hget.
  2:{ rewrite (GetOrCreateTimestamp_propagates_lookup_failure _ _ _ _ Hget) in Hrun.
      discriminate. }
  destruct (unmarshalTimestamp timestampJSON) as [prev|e] eqn:Hparse.
  2:{ rewrite (proj1 (GetOrCreateTimestamp_early_failures _ _ _ _ _ e Hget) Hparse)
        in Hrun. discriminate. }
  destruct (GetOrCreateSnapshot gun s1 (crypto w)) as [[s2 k2] [[snapshotModified snapshot]|e]]
    eqn:Hsnapshot.
  2:{ rewrite (proj2 (GetOrCreateTimestamp_early_failures _ _ _ _ _ e Hget)
                     _ _ _ Hparse Hsnapshot) in Hrun. discriminate. }
  rewrite (GetOrCreateTimestamp_decision _ _ _ _ _ _ _ _ _ _ Hget Hparse Hsnapshot) in Hrun.
  destruct (negb (timestampExpired prev) && negb (snapshotExpired prev snapshot)).
  - left. injection Hrun as <- <- <-. exists s1. split; reflexivity.
  - right. unfold regenerate in Hrun.
    destruct (createTimestamp gun (Some prev) snapshot _) as [[update|e] w3] eqn:Hcreate;
      [|discriminate].
    destruct (UpdateCurrent (store w3) gun update) as [s4 [e|]] eqn:Hupdate; [discriminate|].
    injection Hrun as <- <- <-. exists update, w3, s4.
    split; [eapply createTimestamp_role; eauto|]. now repeat split.
Qed.

Ltac all_reads :=
  repeat (apply List.Forall_cons; [auto 6|]); apply List.Forall_nil.

(** X20. [GetOrCreateTimestamp] writes at most once, as its last call,
    and only a timestamp-role update for the GUN it was called with: the
    calls it makes are reads, a call of the snapshot engine and a signing,
    followed or not by this one [UpdateCurrent]. *)
Theorem GetOrCreateTimestamp_writes_only_timestamp (gun : string) (w : World S K) :
  exists reads,
    Forall (fun call =>
              call = CallGetCurrent gun CanonicalTimestampRole \/
              call = CallGetOrCreateSnapshot gun \/
              call = CallGetCurrent gun CanonicalRootRole \/
              call = CallSignTimestamp (DefaultExpires CanonicalTimestampRole)) reads /\
    (calls (snd (GetOrCreateTimestamp gun w)) = (calls w ++ reads)%list \/
     exists update,
       Role update = CanonicalTimestampRole /\
       calls (snd (GetOrCreateTimestamp gun w))
       = (calls w ++ reads ++ [CallUpdateCurrent gun update])%list).
Proof.
  destruct (GetCurrent (store w) gun CanonicalTimestampRole)
    as [s1 [[lastModified timestampJSON]|e]] eqn:Hget.
  2:{ rewrite (GetOrCreateTimestamp_propagates_lookup_failure _ _ _ _ Hget).
      exists [CallGetCurrent gun CanonicalTimestampRole]. split; [|now left].
      all_reads. }
  destruct (unmarshalTimestamp timestampJSON) as [prev|e] eqn:Hparse.
  2:{ rewrite (proj1 (GetOrCreateTimestamp_early_failures _ _ _ _ _ e Hget) Hparse).
      exists [CallGetCurrent gun CanonicalTimestampRole]. split; [|now left].
      all_reads. }
  destruct (GetOrCreateSnapshot gun s1 (crypto w)) as [[s2 k2] [[snapshotModified snapshot]|e]]
    eqn:Hsnapshot.
  2:{ rewrite (proj2 (GetOrCreateTimestamp_early_failures _ _ _ _ _ e Hget)
                     _ _ _ Hparse Hsnapshot).
      exists [CallGetCurrent gun CanonicalTimestampRole; CallGetOrCreateSnapshot gun].
      split; [|now left]. all_reads. }
  rewrite (GetOrCreateTimestamp_decision _ _ _ _ _ _ _ _ _ _ Hget Hparse Hsnapshot).
  destruct (negb (timestampExpired prev) && negb (snapshotExpired prev snapshot)).
  { exists [CallGetCurrent gun CanonicalTimestampRole; CallGetOrCreateSnapshot gun].
    split; [|now left]. all_reads. }
  unfold regenerate.
  match goal with
  | |- context [createTimestamp gun (Some prev) snapshot ?w2] =>
    pose proof (createTimestamp_shape gun (Some prev) snapshot w2) as Hshape;
    destruct (createTimestamp gun (Some prev) snapshot w2) as [[update|e] w3] eqn:Hcreate
  end; simpl in Hshape.
  - destruct Hshape as [[_ [e He]]|(Hcalls & _ & Hrole)]; [discriminate|].
    destruct (UpdateCurrent (store w3) gun update) as [s4 updated]. simpl.
    exists [CallGetCurrent gun CanonicalTimestampRole; CallGetOrCreateSnapshot gun;
            CallGetCurrent gun CanonicalRootRole;
            CallSignTimestamp (DefaultExpires CanonicalTimestampRole)].
    split; [all_reads|]. right. exists update.
    split; [now apply Hrole|]. rewrite Hcalls. now rewrite <- !app_assoc.
  - destruct Hshape as [[Hcalls _]|(Hcalls & _ & _)]; simpl; rewrite Hcalls.
    + exists [CallGetCurrent gun CanonicalTimestampRole; CallGetOrCreateSnapshot gun;
              CallGetCurrent gun CanonicalRootRole].
      split; [all_reads|]. left. now rewrite <- !app_assoc.
    + exists [CallGetCurrent gun CanonicalTimestampRole; CallGetOrCreateSnapshot gun;
              CallGetCurrent gun CanonicalRootRole;
              CallSignTimestamp (DefaultExpires CanonicalTimestampRole)].
      split; [all_reads|]. left. now rewrite <- !app_assoc.
Qed.

End Engine.

(** ** The registry and the key store of the tests *)

Section KeyStore.
Import TimestampFixtures.
Context {K : Type} {cryptoService : CryptoService K}.

(** X21. Against the [keyStore] of the tests, which finds no key at
    first and refuses every [SetKey] because a key exists, the registry
    returns the key [k] of the store, on the first call and on the next,
    provided [Create] yields a key; the key it created is dropped. *)
Theorem registry_against_test_key_store
    (gun createAlgorithm : string) (key : PublicKey) (cs : K) :
  (exists cs' created, Create cs "timestamp" gun createAlgorithm = (cs', Ok created)) ->
  let first := GetOrCreateTimestampKey gun createAlgorithm
                 (worldOf {| getCalled := false; k := key |} cs) in
  fst first = Ok key /\
  store (snd first) = {| getCalled := true; k := key |} /\
  fst (GetOrCreateTimestampKey gun createAlgorithm (snd first)) = Ok key.
Proof.
  intros (cs' & created & Hcreate).
  unfold GetOrCreateTimestampKey, bind, storeGetKey, cryptoCreate, storeSetKey, ret, worldOf.
  simpl. rewrite Hcreate. simpl. now destruct key.
Qed.

End KeyStore.

(** ** The properties at work on a repository *)

Section Runs.
Import TimestampFixtures.

Lemma registry_creates_key_once_witness :
  fst (GetOrCreateTimestampKey gun "ed25519" (worldOf (storageWith []) [])) = Ok createdKey.
Proof.
  destruct (registry_creates_key_once gun "ed25519" (worldOf (storageWith []) [])
              (storageWith [])
              (fst (SetKey (storageWith []) gun CanonicalTimestampRole
                           "ed25519" "timestamp-key-of-gun"))
              (fst (SetKey (storageWith []) gun CanonicalTimestampRole
                           "ed25519" "timestamp-key-of-gun"))
              [createdKey] createdKey) as [Hfirst _].
  - by_computation.
  - by_computation.
  - by_computation.
  - by_computation.
  - now rewrite Hfirst.
Defined.

Lemma registry_propagates_failures_witness :
  fst (GetOrCreateTimestampKey gun "ed25519" (worldOf readOnly ([] : list PublicKey)))
  = Err (ErrOther "read-only store").
Proof.
  destruct (registry_propagates_failures gun "ed25519"
              (worldOf readOnly ([] : list PublicKey)) readOnly
              (ErrOther "read-only store")) as (_ & Hset & _).
  - reflexivity.
  - rewrite (Hset [createdKey] createdKey readOnly); [reflexivity|reflexivity|reflexivity|].
    discriminate.
Defined.

Lemma createTimestamp_signs_only_decoded_witness :
  calls (snd (createTimestamp gun None "snapshot-1"
                (worldOf (storageWith [("root", "root-1")]) [])))
  = [CallGetCurrent gun CanonicalRootRole;
     CallSignTimestamp (DefaultExpires CanonicalTimestampRole)].
Proof.
  destruct (createTimestamp_signs_only_decoded gun None "snapshot-1"
              (worldOf (storageWith [("root", "root-1")]) []))
    as [[_ [e Herr]]|(Hcalls & _ & _)].
  - vm_compute in Herr. discriminate.
  - exact Hcalls.
Defined.

Lemma GetOrCreateTimestamp_propagates_corruption_witness :
  fst (GetOrCreateTimestamp gun (worldOf corruptTimestamp []))
  = Err (ErrOther "invalid character").
Proof.
  destruct (GetOrCreateTimestamp_propagates_corruption gun
              (worldOf corruptTimestamp []) corruptTimestamp 990 "invalid JSON"
              (ErrOther "invalid character")) as [Hcorrupt _].
  - by_computation.
  - rewrite Hcorrupt; [reflexivity|by_computation].
Defined.

Lemma GetOrCreateTimestamp_returns_persisted_witness :
  exists update,
    Role update = CanonicalTimestampRole /\ Data update = "timestamp-2-of-snapshot-2".
Proof.
  destruct (GetOrCreateTimestamp_returns_persisted gun
              (worldOf changedSnapshot [])
              (snd (GetOrCreateTimestamp gun (worldOf changedSnapshot [])))
              1000 "timestamp-2-of-snapshot-2")
    as [(s1 & Hstored & _)|(update & w3 & s4 & Hrole & Hdata & _)].
  - by_computation.
  - vm_compute in Hstored. discriminate.
  - exists update. now split.
Defined.

Lemma registry_against_test_key_store_witness :
  fst (GetOrCreateTimestampKey gun "ed25519"
         (worldOf {| getCalled := false; k := winner |} ([] : list PublicKey)))
  = Ok winner.
Proof.
  apply (registry_against_test_key_store gun "ed25519" winner ([] : list PublicKey)).
  exists [createdKey], createdKey. reflexivity.
Defined.

End Runs.

End TimestampExtras.
